(** * JAXAtari Pacman front ends: a shallow embedding

    Two scripts are embedded here.

    - [run_pacman.py]: the scripted 50-step test run; the part modelled is
      the action rule of its loop.
    - [play_pacman_ui.py]: the interactive pygame loop.  Its local variables
      become the record [Session]; every call that leaves the script
      (environment, pygame, console, JAX key derivation) is recorded in a
      log of [Effect]s, and a call that may raise returns a sum.

    The environment, the JAX key functions and the helper
    [get_human_action] are collaborators of the scripts: they are taken as
    an interface ([Collaborators], [Env]) and never given a body here.
    The calls into the environment may raise; pygame and the console are
    taken not to.  Rewards and the cumulative reward are binary64 floats,
    as Python's are. *)

From Stdlib Require Import ZArith List Bool Lia Floats.
From stdpp Require Import base option list gmap strings.

Local Open Scope Z_scope.

(** ** run_pacman.py *)

Module RunPacman.

(** Line 54: [action = (step // 10) % 4 + 1].  Python's [//] and [%]
    round towards minus infinity for a positive divisor, as [Z.div] and
    [Z.modulo] do. *)
Definition scripted_action (step : Z) : Z := (step / 10) mod 4 + 1.

(** Line 52: [for step in range(50)]. *)
Definition steps : list Z := map Z.of_nat (seq 0 50).

Definition scripted_actions : list Z := map scripted_action steps.

End RunPacman.

(** ** play_pacman_ui.py *)

(** Line 18. *)
Definition UPSCALE_FACTOR : Z := 4.

(** The action vocabulary of the source side, as the comment on line 118
    gives it. *)
Module JAXAtariAction.
Definition NOOP : Z := 0.
Definition FIRE : Z := 1.
Definition UP : Z := 2.
Definition RIGHT : Z := 3.
Definition LEFT : Z := 4.
Definition DOWN : Z := 5.
End JAXAtariAction.

(** The vocabulary of the Pacman environment (comment on line 119). *)
Module PacmanAction.
Definition NOOP : Z := 0.
Definition UP : Z := 1.
Definition RIGHT : Z := 2.
Definition LEFT : Z := 3.
Definition DOWN : Z := 4.
End PacmanAction.

(** Lines 120-126: the dict literal, built by successive insertions. *)
Definition action_map : gmap Z Z :=
  <[5 := 4]> (<[4 := 3]> (<[3 := 2]> (<[2 := 1]> (<[0 := 0]> ∅)))).

(** Line 127: [action_map.get(action_int, 0)]. *)
Definition translate (action_int : Z) : Z :=
  default 0 (action_map !! action_int).

(** *** Collaborators

    Everything the script calls but does not define.  [Exn] stands for the
    instances of Python's [Exception]; [is_import_error] tells the
    [ImportError]s among them, which the module-level handlers separate
    (lines 159 and 167).  [obs_score] and [obs_lives] are [None] when the
    observation has no such attribute ([hasattr], lines 134-135), and
    [frame_shape] is [image.shape[:2]], height first (line 61). *)
Class Collaborators := {
  Key : Type;
  EnvState : Type;
  Obs : Type;
  Frame : Type;
  Exn : Type;
  is_import_error : Exn -> bool;
  PRNGKey : Z -> Key;
  fold_in : Key -> Z -> Key;
  obs_score : Obs -> option Z;
  obs_lives : Obs -> option Z;
  frame_shape : Frame -> Z * Z }.

(** The object returned by [jaxatari.make]: the three calls the script
    jits on lines 50-52.  Each may raise.  The reward is already the Python
    float of line 131 and [done] the truth value tested on line 141. *)
Record Env `{Collaborators} := {
  reset : Key -> Exn + (Obs * EnvState);
  step : EnvState -> Z -> Exn + (Obs * EnvState * float * bool);
  render : EnvState -> Exn + Frame }.

(** Keys the loop tells apart (lines 86, 89, 92). *)
Inductive PgKey := K_ESCAPE | K_p | K_r | K_other (code : Z).

(** Events returned by [pygame.event.get()] (lines 82, 85). *)
Inductive Event := QUIT | KEYDOWN (key : PgKey) | OtherEvent (type : Z).

(** What [get_human_action()] does when it is called: it returns an action
    or raises [SystemExit] (line 109). *)
Inductive HumanInput := HumanAction (action : Z) | HumanSystemExit.

(** One iteration's worth of input: the pending events and the answer the
    keyboard helper would give. *)
Record TickInput := { events : list Event; human : HumanInput }.

Section Effects.
Context `{Collaborators}.

(** Console lines, by the [print] that writes them. *)
Inductive Msg :=
| MsgBanner                                   (* lines 22-30 *)
| MsgLoading                                  (* line 33 *)
| MsgLoaded                                   (* line 36 *)
| MsgLoadError (e : Exn)                      (* line 38 *)
| MsgTraceback (e : Exn)                      (* lines 40, 170 *)
| MsgStarting                                 (* lines 75-76 *)
| MsgPaused                                   (* line 91 *)
| MsgResumed                                  (* line 91 *)
| MsgGameReset                                (* line 97 *)
| MsgGameOver (score : Z) (total_return : float)  (* line 142 *)
| MsgClosed                                   (* line 154 *)
| MsgMissingDeps (e : Exn)                    (* lines 160-165 *)
| MsgError (e : Exn).                         (* line 168 *)

(** Window titles (lines 45 and 136-138). *)
Inductive Caption :=
| CaptionPlain
| CaptionStatus (score lives : Z) (total_return : float).

(** Calls that leave the script, in the order they are made. *)
Inductive Effect :=
| Print (m : Msg)
| PygameInit
| SetCaption (c : Caption)
| SetMode (width height : Z)
| PygameQuit
| EventGet
| GetHumanAction
| CallReset (k : Key)
| CallStep (s : EnvState) (a : Z)
| CallRender (s : EnvState)
| UpdatePygame (image : Frame) (upscale w h : Z)
| ClockTick (fps : Z)
| SysExit (status : Z).

(** A computation: the effects it performed, and either the exception
    that ended it or its value. *)
Record Res (A : Type) := MkRes { log : list Effect; val : Exn + A }.
Global Arguments MkRes {A} _ _.
Global Arguments log {A} _.
Global Arguments val {A} _.

Definition ret {A} (a : A) : Res A := MkRes [] (inr a).

Definition bind {A B} (m : Res A) (f : A -> Res B) : Res B :=
  match val m with
  | inl e => MkRes (log m) (inl e)
  | inr a => MkRes (log m ++ log (f a)) (val (f a))
  end.

(** An effect that cannot fail. *)
Definition emit (e : Effect) : Res unit := MkRes [e] (inr tt).

(** A call into a collaborator that may raise. *)
Definition call {A} (e : Effect) (r : Exn + A) : Res A := MkRes [e] r.

End Effects.

(** [Res] is a monad in stdpp's sense, which gives the notations
    [x ← m; k], ['(x, y) ← m; k] and [m;; k]. *)
Global Instance res_ret `{Collaborators} : MRet Res := @ret _.
Global Instance res_bind `{Collaborators} : MBind Res :=
  fun A B f m => bind m f.

(** *** The session: the local variables of [main] that outlive a line *)

Section Session.
Context `{Collaborators}.

Record Session := {
  running : bool;            (* line 70 *)
  pause : bool;              (* line 71 *)
  reset_counter : Z;         (* line 49 *)
  total_return : float;      (* line 73 *)
  obs : Obs;                 (* lines 56, 94, 130, 145 *)
  state : EnvState }.        (* lines 56, 94, 130, 145 *)

Definition set_running (b : bool) (st : Session) : Session :=
  {| running := b; pause := pause st; reset_counter := reset_counter st;
     total_return := total_return st; obs := obs st; state := state st |}.

Definition set_pause (b : bool) (st : Session) : Session :=
  {| running := running st; pause := b; reset_counter := reset_counter st;
     total_return := total_return st; obs := obs st; state := state st |}.

(** Line 48. *)
Definition master_key : Key := PRNGKey 42.

(** Line 72. *)
Definition frame_rate : Z := 30.

(** Lines 93-97, the body of the [K_r] branch. *)
Definition manual_reset (env : Env) (st : Session) : Res Session :=
  let reset_key := fold_in master_key (reset_counter st) in
  '(obs', state') ← call (CallReset reset_key) (reset env reset_key);
  let st' := {| running := running st; pause := pause st;
                reset_counter := reset_counter st + 1;
                total_return := 0%float;
                obs := obs'; state := state' |} in
  emit (Print MsgGameReset);;
  mret st'.

(** Lines 82-97, one event.  The [continue]s of lines 84 and 88 belong
    to the [for] loop: the remaining events are still handled. *)
Definition handle_event (env : Env) (st : Session) (event : Event)
  : Res Session :=
  match event with
  | QUIT => mret (set_running false st)
  | KEYDOWN K_ESCAPE => mret (set_running false st)
  | KEYDOWN K_p =>
      let st' := set_pause (negb (pause st)) st in
      emit (Print (if pause st' then MsgPaused else MsgResumed));;
      mret st'
  | KEYDOWN K_r => manual_reset env st
  | KEYDOWN (K_other _) => mret st
  | OtherEvent _ => mret st
  end.

(** Line 81, the [for] loop over the pending events. *)
Fixpoint handle_events (env : Env) (st : Session) (evs : list Event)
  : Res Session :=
  match evs with
  | [] => mret st
  | event :: rest =>
      st' ← handle_event env st event;
      handle_events env st' rest
  end.

(** Lines 101-103 and, word for word, 149-151. *)
Definition show (env : Env) (st : Session) : Res unit :=
  image ← call (CallRender (state st)) (render env (state st));
  emit (UpdatePygame image UPSCALE_FACTOR 160 210);;
  emit (ClockTick frame_rate).

(** Lines 141-146. *)
Definition check_done (env : Env) (st : Session) (score : Z) (done : bool)
  : Res Session :=
  if done then
    emit (Print (MsgGameOver score (total_return st)));;
    let reset_key := fold_in master_key (reset_counter st) in
    '(obs', state') ← call (CallReset reset_key) (reset env reset_key);
    mret {| running := running st; pause := pause st;
            reset_counter := reset_counter st + 1;
            total_return := 0%float;
            obs := obs'; state := state' |}
  else mret st.

(** Lines 99-151: the rest of an iteration, once the events are
    handled. *)
Definition advance (env : Env) (st : Session) (h : HumanInput)
  : Res Session :=
  if pause st then
    show env st;;
    mret st
  else
    emit GetHumanAction;;
    match h with
    | HumanSystemExit => mret (set_running false st)
    | HumanAction action =>
        let action_int := action in
        let pacman_action := translate action_int in
        '(obs', state', reward, done) ←
          call (CallStep (state st) pacman_action)
               (step env (state st) pacman_action);
        let st1 := {| running := running st; pause := pause st;
                      reset_counter := reset_counter st;
                      total_return := (total_return st + reward)%float;
                      obs := obs'; state := state' |} in
        let score := default 0 (obs_score obs') in
        let lives := default 0 (obs_lives obs') in
        emit (SetCaption (CaptionStatus score lives (total_return st1)));;
        st2 ← check_done env st1 score done;
        show env st2;;
        mret st2
    end.

(** Lines 80-151: one iteration of [while running]. *)
Definition loop_body (env : Env) (st : Session) (inp : TickInput)
  : Res Session :=
  emit EventGet;;
  st' ← handle_events env st (events inp);
  advance env st' (human inp).

(** Line 79.  The loop runs for as long as the user lets it; here it is
    run over the inputs of finitely many iterations and stops early when
    [running] is false at the test. *)
Fixpoint main_loop (env : Env) (inputs : list TickInput) (st : Session)
  : Res Session :=
  match inputs with
  | [] => mret st
  | inp :: rest =>
      if running st then
        st' ← loop_body env st inp;
        main_loop env rest st'
      else mret st
  end.

(** Lines 44-76. *)
Definition start (env : Env) : Res Session :=
  emit PygameInit;;
  emit (SetCaption CaptionPlain);;
  let reset_counter0 := 0 in
  let reset_key := fold_in master_key reset_counter0 in
  '(obs0, state0) ← call (CallReset reset_key) (reset env reset_key);
  let reset_counter1 := reset_counter0 + 1 in
  image ← call (CallRender state0) (render env state0);
  let env_render_shape := frame_shape image in
  emit (SetMode (snd env_render_shape * UPSCALE_FACTOR)
                (fst env_render_shape * UPSCALE_FACTOR));;
  emit (Print MsgStarting);;
  mret {| running := true; pause := false;
          reset_counter := reset_counter1; total_return := 0%float;
          obs := obs0; state := state0 |}.

(** Lines 44-151: set-up followed by the loop. *)
Definition session (env : Env) (inputs : list TickInput) : Res Session :=
  st ← start env;
  main_loop env inputs st.

(** How [main] was left, as far as the inputs reach. *)
Inductive MainResult :=
| LoadFailed                  (* the [return] of line 41 *)
| InLoop (st : Session)       (* inputs used up, [running] still true *)
| Closed (st : Session).      (* fell off the end, line 154 *)

(** Lines 20-154.  [make] is what [jaxatari.make("pacman")] does. *)
Definition main (make : Exn + Env) (inputs : list TickInput)
  : Res MainResult :=
  emit (Print MsgBanner);;
  emit (Print MsgLoading);;
  match make with
  | inl e =>
      emit (Print (MsgLoadError e));;
      emit (Print (MsgTraceback e));;
      mret LoadFailed
  | inr env =>
      emit (Print MsgLoaded);;
      st' ← session env inputs;
      if running st' then mret (InLoop st')
      else
        emit PygameQuit;;
        emit (Print MsgClosed);;
        mret (Closed st')
  end.

(** What the operating system sees of the process: its output, and its
    exit status once it has one. *)
Record Process := { output : list Effect; exit_status : option Z }.

(** Lines 159-171, the two module-level handlers. *)
Definition handler (e : Exn) : list Effect :=
  if is_import_error e
  then [Print (MsgMissingDeps e); SysExit 1]
  else [Print (MsgError e); Print (MsgTraceback e); SysExit 1].

(** Lines 14-171, run as [__main__].  [imports] is the exception raised
    by the imports of lines 15-16, if any. *)
Definition script (imports : option Exn) (make : Exn + Env)
    (inputs : list TickInput) : Process :=
  match imports with
  | Some e => {| output := handler e; exit_status := Some 1 |}
  | None =>
      let r := main make inputs in
      match val r with
      | inl e => {| output := log r ++ handler e; exit_status := Some 1 |}
      | inr (InLoop _) => {| output := log r; exit_status := None |}
      | inr _ => {| output := log r; exit_status := Some 0 |}
      end
  end.

(** *** Readings of a log *)

Definition reset_key_of (e : Effect) : option Key :=
  match e with CallReset k => Some k | _ => None end.

Definition rendered_of (e : Effect) : option EnvState :=
  match e with CallRender s => Some s | _ => None end.

Definition is_step (e : Effect) : bool :=
  match e with CallStep _ _ => true | _ => false end.

Definition is_poll (e : Effect) : bool :=
  match e with GetHumanAction => true | _ => false end.

(** The keys of the reset calls, in order. *)
Definition reset_keys (tr : list Effect) : list Key :=
  omap reset_key_of tr.

(** The states passed to render, in order. *)
Definition rendered (tr : list Effect) : list EnvState :=
  omap rendered_of tr.

Definition step_calls (tr : list Effect) : nat :=
  length (filter (fun e => is_step e = true) tr).

Definition polls (tr : list Effect) : nat :=
  length (filter (fun e => is_poll e = true) tr).

(** The keys derived from the counter values [c], [c + 1], ... ,
    [c + n - 1], in this order. *)
Definition derived_keys (c : Z) (n : nat) : list Key :=
  map (fun i => fold_in master_key (c + Z.of_nat i)) (seq 0 n).

(** [raised_by env x e]: the logged call [x] is a call into the
    environment that raised [e]. *)
Definition raised_by (env : Env) (x : Effect) (e : Exn) : Prop :=
  match x with
  | CallReset k => reset env k = inl e
  | CallStep s a => step env s a = inl e
  | CallRender s => render env s = inl e
  | _ => False
  end.

(** [raises_at_last_call env m]: when [m] ends with an exception, its
    last logged call is the call into the environment that raised it. *)
Definition raises_at_last_call (env : Env) {A} (m : Res A) : Prop :=
  forall e, val m = inl e ->
    exists x, last (log m) = Some x /\ raised_by env x e.

(** [counting f]: whenever [f] returns, its reset calls used the counter
    values from the one it started with upwards, one each, and the
    counter it leaves is the one it started with plus their number. *)
Definition counting (f : Session -> Res Session) : Prop :=
  forall st st', val (f st) = inr st' ->
    exists n : nat,
      reset_keys (log (f st)) = derived_keys (reset_counter st) n /\
      reset_counter st' = reset_counter st + Z.of_nat n.

(** An environment none of whose calls raises. *)
Definition never_raises (env : Env) : Prop :=
  (forall k e, reset env k <> inl e) /\
  (forall s a e, step env s a <> inl e) /\
  (forall s e, render env s <> inl e).

End Session.

(** *** The translation table as the specification words it

    Section 6 of the specification: NOOP, UP, RIGHT, LEFT and DOWN go to
    their namesakes, anything else to NOOP. *)
Definition spec_translate (a : Z) : Z :=
  if decide (a = JAXAtariAction.NOOP) then PacmanAction.NOOP
  else if decide (a = JAXAtariAction.UP) then PacmanAction.UP
  else if decide (a = JAXAtariAction.RIGHT) then PacmanAction.RIGHT
  else if decide (a = JAXAtariAction.LEFT) then PacmanAction.LEFT
  else if decide (a = JAXAtariAction.DOWN) then PacmanAction.DOWN
  else PacmanAction.NOOP.

(** ** A small concrete world

    A countdown game used to run the definitions: the state is the number
    of moves left, every move pays 5.0, and the episode is over when no
    move is left.  [flaky] is the same game with a renderer that raises on
    the state 1. *)
Module Toy.

Definition world : Collaborators := {|
  Key := Z;
  EnvState := Z;
  Obs := Z * Z;
  Frame := Z;
  Exn := Z;
  is_import_error := fun e => e =? 2;
  PRNGKey := fun seed => seed;
  fold_in := fun key data => 1000 * key + data;
  obs_score := fun o => Some (fst o);
  obs_lives := fun o => Some (snd o);
  frame_shape := fun _ => (210, 160) |}.

Definition countdown : @Env world :=
  @Build_Env world
    (fun _ => inr ((0, 3), 2))
    (fun s _ =>
       inr ((10 * (2 - (s - 1)), 3), s - 1, 5%float, s - 1 <=? 0))
    (fun s => inr s).


(** A session in mid-episode: one move left, 10.0 collected so far. *)
Definition last_move : @Session world :=
  @Build_Session world true false 1 10%float (10, 3) 1.

(** The same session, paused. *)
Definition paused : @Session world := set_pause true last_move.

Definition tick (evs : list Event) (a : Z) : TickInput :=
  {| events := evs; human := HumanAction a |}.

(** Either game right after set-up. *)
Definition started : @Session world :=
  @Build_Session world true false 1 0%float (0, 3) 2.

(** Three iterations: a manual reset and a move, a move that ends the
    episode, and a first move of the next episode. *)
Definition inputs : list TickInput :=
  [tick [KEYDOWN K_r] 3; tick [] 3; tick [] 2].

(** The session these three iterations leave. *)
Definition final : @Session world :=
  @Build_Session world true false 3 5%float (10, 3) 1.

End Toy.

(** ** Further readings of the interactive loop *)

Section MoreReadings.
Context `{Collaborators}.

Definition step_action_of (e : Effect) : option Z :=
  match e with CallStep _ a => Some a | _ => None end.

(** The actions passed to the environment's step, in order. *)
Definition step_actions (tr : list Effect) : list Z :=
  omap step_action_of tr.

(** [every_effect P m]: every call [m] makes satisfies [P]. *)
Definition every_effect (P : Effect -> Prop) {A} (m : Res A) : Prop :=
  Forall P (log m).

(** A step call is within the environment's vocabulary when its action is
    one of 0 to 4 (comment on line 119). *)
Definition pacman_action_only (e : Effect) : Prop :=
  match e with CallStep _ a => 0 <= a <= 4 | _ => True end.

(** The calls the session (set-up and loop, lines 44-151) can make: not
    [pygame.quit], not [sys.exit], and a step only with a translated
    action. *)
Definition loop_effect (e : Effect) : Prop :=
  match e with
  | PygameQuit | SysExit _ => False
  | CallStep _ a => exists action_int, a = translate action_int
  | _ => True
  end.

(** The events of lines 82 and 86, of line 89 and of line 92. *)
Definition is_quit (event : Event) : bool :=
  match event with QUIT | KEYDOWN K_ESCAPE => true | _ => false end.

Definition is_toggle (event : Event) : bool :=
  match event with KEYDOWN K_p => true | _ => false end.

Definition is_reset_key (event : Event) : bool :=
  match event with KEYDOWN K_r => true | _ => false end.

Definition toggles (evs : list Event) : nat :=
  length (filter (fun event => is_toggle event = true) evs).

Definition reset_presses (evs : list Event) : nat :=
  length (filter (fun event => is_reset_key event = true) evs).

(** What a paused iteration without events does: lines 81 and 101-103. *)
Definition idle_frame (s : EnvState) (image : Frame) : list Effect :=
  [EventGet; CallRender s; UpdatePygame image UPSCALE_FACTOR 160 210;
   ClockTick frame_rate].

End MoreReadings.

(** ** run_pacman.py, the whole script

    What the test script calls besides the environment: the listing of the
    games, [env.action_space()], [jax.random.split], the attributes of
    the observation that it prints, and what it prints of the image.  The
    script reads the attributes without [hasattr]: an attribute that is
    absent ([None] here, as for [obs_score]) raises [AttributeError]. *)
Class Inspectors `{Collaborators} := {
  ActionSpace : Type;
  Dtype : Type;
  action_space : Env -> ActionSpace;            (* line 32 *)
  random_split : Key -> Key * Key;              (* line 56 *)
  obs_player : Obs -> option (Z * Z);           (* line 41 *)
  obs_pellets : Obs -> option Z;                (* lines 42, 63, 72 *)
  obs_power_pellets : Obs -> option Z;          (* line 43 *)
  frame_dims : Frame -> list Z;                 (* line 80 *)
  frame_dtype : Frame -> Dtype;                 (* line 81 *)
  frame_min : Frame -> Z;                       (* line 82 *)
  frame_max : Frame -> Z;                       (* line 82 *)
  AttributeError : string -> Exn }.

Module RunPacmanScript.

Section Script.
Context `{Inspectors}.

(** Console lines, by the [print] that writes them. *)
Inductive Line :=
| Banner                                        (* lines 17-19 *)
| AvailableGames (games : list string)          (* line 23 *)
| NotFound                                      (* line 26 *)
| Creating                                      (* line 29 *)
| Created                                       (* line 31 *)
| ActionSpaceLine (a : ActionSpace)             (* line 32 *)
| Resetting                                     (* line 35 *)
| ResetDone                                     (* line 38 *)
| InitialScore (n : Z)                          (* line 39 *)
| InitialLives (n : Z)                          (* line 40 *)
| PlayerPosition (x y : Z)                      (* line 41 *)
| PelletsRemaining (n : Z)                      (* line 42 *)
| PowerPelletsRemaining (n : Z)                 (* line 43 *)
| Running                                       (* lines 46-49 *)
| StepLine (step action : Z) (reward : float)
           (score lives pellets : Z) (done : bool)  (* lines 61-63 *)
| GameOver (score : Z)                          (* line 66 *)
| TotalReward (r : float)                       (* line 69 *)
| FinalScore (n : Z)                            (* line 70 *)
| FinalLives (n : Z)                            (* line 71 *)
| FinalPellets (n : Z)                          (* line 72 *)
| TestingRendering                              (* lines 75-76 *)
| RenderingOk                                   (* line 79 *)
| ImageShape (dims : list Z)                    (* line 80 *)
| ImageDtype (d : Dtype)                        (* line 81 *)
| ImageRange (lo hi : Z)                        (* line 82 *)
| RenderingError (e : Exn)                      (* line 84 *)
| Traceback (e : Exn)                           (* lines 86, 106 *)
| Completed                                     (* lines 88-90 *)
| MissingDeps (e : Exn)                         (* lines 96-101 *)
| ErrorLine (e : Exn).                          (* line 104 *)

(** Calls that leave the script, in the order they are made. *)
Inductive Call :=
| Say (l : Line)
| ListGames
| Make
| AskActionSpace
| DoReset (k : Key)
| DoStep (s : EnvState) (a : Z)
| DoRender (s : EnvState)
| Exit (status : Z).

(** A computation of the script: the calls made, and the exception that
    ended it or its value. *)
Record Out (A : Type) := MkOut { trace : list Call; result : Exn + A }.
Global Arguments MkOut {A} _ _.
Global Arguments trace {A} _.
Global Arguments result {A} _.

Definition out_ret {A} (a : A) : Out A := MkOut [] (inr a).

Definition out_bind {A B} (m : Out A) (f : A -> Out B) : Out B :=
  match result m with
  | inl e => MkOut (trace m) (inl e)
  | inr a => MkOut (trace m ++ trace (f a)) (result (f a))
  end.

Definition say (l : Line) : Out unit := MkOut [Say l] (inr tt).

Definition does (c : Call) : Out unit := MkOut [c] (inr tt).

Definition calls {A} (c : Call) (r : Exn + A) : Out A := MkOut [c] r.

(** Reading an attribute of the observation. *)
Definition attr {A} (name : string) (o : option A) : Out A :=
  match o with
  | Some v => MkOut [] (inr v)
  | None => MkOut [] (inl (AttributeError name))
  end.

End Script.

Global Instance out_mret `{Inspectors} : MRet Out := @out_ret _ _.
Global Instance out_mbind `{Inspectors} : MBind Out :=
  fun A B f m => out_bind m f.

Section Main.
Context `{Inspectors}.

(** The variables the loop of line 52 reads and writes. *)
Record Vars := {
  key : Key;                   (* lines 36, 56 *)
  obs : Obs;                   (* lines 37, 57 *)
  state : EnvState;            (* lines 37, 57 *)
  total_reward : float }.      (* lines 51, 58 *)

(** Lines 53-67, one pass through the body of the [for] loop, for the
    value [index] of the loop variable [step]; the boolean tells whether
    the pass ended in the [break] of line 67. *)
Definition body (env : Env) (v : Vars) (index : Z) : Out (Vars * bool) :=
  let action := RunPacman.scripted_action index in
  let key' := fst (random_split (key v)) in
  '(obs', state', reward, done) ←
    calls (DoStep (state v) action) (step env (state v) action);
  let total_reward' := (total_reward v + reward)%float in
  let v' := {| key := key'; obs := obs'; state := state';
               total_reward := total_reward' |} in
  (if (index mod 10 =? 0) || done then
     score ← attr "score" (obs_score obs');
     lives ← attr "lives" (obs_lives obs');
     pellets ← attr "pellets" (obs_pellets obs');
     say (StepLine index action reward score lives pellets done)
   else mret tt);;
  if (done : bool) then
    score ← attr "score" (obs_score obs');
    say (GameOver score);;
    mret (v', true)
  else mret (v', false).

(** Lines 52-67, the [for] loop over the given step indices; the boolean
    tells whether it was left by [break]. *)
Fixpoint loop (env : Env) (steps : list Z) (v : Vars) : Out (Vars * bool) :=
  match steps with
  | [] => mret (v, false)
  | index :: rest =>
      '(v', broke) ← body env v index;
      if (broke : bool) then mret (v', true) else loop env rest v'
  end.

(** Lines 74-86: the rendering test, with its own handler. *)
Definition test_rendering (env : Env) (v : Vars) : Out unit :=
  say TestingRendering;;
  match render env (state v) with
  | inr image =>
      does (DoRender (state v));;
      say RenderingOk;;
      say (ImageShape (frame_dims image));;
      say (ImageDtype (frame_dtype image));;
      say (ImageRange (frame_min image) (frame_max image))
  | inl e =>
      does (DoRender (state v));;
      say (RenderingError e);;
      say (Traceback e)
  end.

(** Lines 15-90.  [available_games] is what
    [jaxatari.list_available_games()] returns and [make] what
    [jaxatari.make("pacman")] does. *)
Definition main (available_games : list string) (make : Exn + Env)
  : Out unit :=
  say Banner;;
  does ListGames;;
  say (AvailableGames available_games);;
  if decide ("pacman"%string ∈ available_games) then
    say Creating;;
    env ← calls Make make;
    say Created;;
    does AskActionSpace;;
    say (ActionSpaceLine (action_space env));;
    say Resetting;;
    let key0 := PRNGKey 42 in
    '(obs0, state0) ← calls (DoReset key0) (reset env key0);
    say ResetDone;;
    score ← attr "score" (obs_score obs0);
    say (InitialScore score);;
    lives ← attr "lives" (obs_lives obs0);
    say (InitialLives lives);;
    '(x, y) ← attr "player" (obs_player obs0);
    say (PlayerPosition x y);;
    pellets ← attr "pellets" (obs_pellets obs0);
    say (PelletsRemaining pellets);;
    power ← attr "power_pellets" (obs_power_pellets obs0);
    say (PowerPelletsRemaining power);;
    say Running;;
    '(v, _) ← loop env RunPacman.steps
                {| key := key0; obs := obs0; state := state0;
                   total_reward := 0%float |};
    say (TotalReward (total_reward v));;
    score ← attr "score" (obs_score (obs v));
    say (FinalScore score);;
    lives ← attr "lives" (obs_lives (obs v));
    say (FinalLives lives);;
    pellets ← attr "pellets" (obs_pellets (obs v));
    say (FinalPellets pellets);;
    test_rendering env v;;
    say Completed
  else
    say NotFound.

(** What the operating system sees of the process. *)
Record Process := { output : list Call; exit_status : Z }.

(** Lines 95-107, the two module-level handlers. *)
Definition handler (e : Exn) : list Call :=
  if is_import_error e
  then [Say (MissingDeps e); Exit 1]
  else [Say (ErrorLine e); Say (Traceback e); Exit 1].

(** Lines 10-107, run as [__main__].  [imports] is the exception raised
    by the imports of lines 11-13, if any. *)
Definition script (imports : option Exn) (available_games : list string)
    (make : Exn + Env) : Process :=
  match imports with
  | Some e => {| output := handler e; exit_status := 1 |}
  | None =>
      let r := main available_games make in
      match result r with
      | inl e => {| output := trace r ++ handler e; exit_status := 1 |}
      | inr _ => {| output := trace r; exit_status := 0 |}
      end
  end.

(** *** Readings of a trace *)

Definition action_of (c : Call) : option Z :=
  match c with DoStep _ a => Some a | _ => None end.

(** The actions passed to step, in order. *)
Definition actions (tr : list Call) : list Z := omap action_of tr.

Definition progress_of (c : Call) : option Z :=
  match c with Say (StepLine step _ _ _ _ _ _) => Some step | _ => None end.

(** The step indices of the progress lines, in order. *)
Definition progress (tr : list Call) : list Z := omap progress_of tr.

(** An observation with the attributes of a progress line and of the
    final report (lines 61-63 and 70-72). *)
Definition printable (o : Obs) : Prop :=
  is_Some (obs_score o) /\ is_Some (obs_lives o) /\ is_Some (obs_pellets o).

(** [runs_on env s steps outs]: started in state [s], the steps of the
    given indices return [outs] in turn (observation, state, reward), each
    without done, and the observation of a step whose index is a multiple
    of ten is printable. *)
Fixpoint runs_on (env : Env) (s : EnvState) (steps : list Z)
    (outs : list (Obs * EnvState * float)) : Prop :=
  match steps, outs with
  | [], [] => True
  | index :: steps', (o, s', r) :: outs' =>
      step env s (RunPacman.scripted_action index) = inr (o, s', r, false) /\
      (index mod 10 = 0 -> printable o) /\
      runs_on env s' steps' outs'
  | _, _ => False
  end.

(** The sum the loop keeps: the rewards added one by one, from the left. *)
Definition add_rewards (total : float)
    (outs : list (Obs * EnvState * float)) : float :=
  fold_left (fun acc out => (acc + snd out)%float) outs total.

(** An observation with every attribute the script reads. *)
Definition complete (o : Obs) : Prop :=
  is_Some (obs_score o) /\ is_Some (obs_lives o) /\
  is_Some (obs_player o) /\ is_Some (obs_pellets o) /\
  is_Some (obs_power_pellets o).

End Main.

End RunPacmanScript.

(** ** More of the small concrete world *)

Module ToyScript.

(** The observation is a pair (score, lives); the lives double as the
    pellet count, and an observation with no lives left has no pellets
    attribute. *)
Definition inspectors : @Inspectors Toy.world :=
  @Build_Inspectors Toy.world
    Z                                               (* ActionSpace *)
    Z                                               (* Dtype *)
    (fun _ => 5)                                    (* action_space *)
    (fun k => (k + 1, k + 2))                       (* random_split *)
    (fun o => Some (fst o, snd o))                  (* obs_player *)
    (fun o => if snd o =? 0 then None else Some (snd o))  (* obs_pellets *)
    (fun _ => Some 4)                               (* obs_power_pellets *)
    (fun _ => [210; 160; 3])                        (* frame_dims *)
    (fun _ => 8)                                    (* frame_dtype *)
    (fun _ => 0)                                    (* frame_min *)
    (fun _ => 255)                                  (* frame_max *)
    (fun _ => 3).                                   (* AttributeError *)

(** A game that never ends: every move pays 1.0. *)
Definition endless : @Env Toy.world :=
  @Build_Env Toy.world
    (fun _ => inr ((0, 3), 0))
    (fun s _ => inr ((s, 3), s + 1, 1%float, false))
    (fun s => if s =? 50 then inl 13 else inr s).

(** A game that ends when its state reaches 100; every move pays 1.0. *)
Definition century : @Env Toy.world :=
  @Build_Env Toy.world
    (fun _ => inr ((0, 3), 0))
    (fun s _ => inr ((s, 3), s + 1, 1%float, s + 1 =? 100))
    (fun s => inr s).

(** What its first fifty steps return. *)
Definition century_outs
  : list (@Obs Toy.world * @EnvState Toy.world * float) :=
  map (fun i => ((Z.of_nat i, 3), Z.of_nat i + 1, 1%float)) (seq 0 50).

(** A game whose first observation has no pellets attribute. *)
Definition bare : @Env Toy.world :=
  @Build_Env Toy.world
    (fun _ => inr ((0, 0), 0))
    (step endless)
    (render endless).


(** The variables of the script's loop in the countdown game: before the
    first step, and after it. *)
Definition fresh : @RunPacmanScript.Vars Toy.world :=
  @RunPacmanScript.Build_Vars Toy.world 42 (0, 3) 2 0%float.

Definition after_one : @RunPacmanScript.Vars Toy.world :=
  @RunPacmanScript.Build_Vars Toy.world 43 (10, 3) 1 5%float.

(** An iteration in which the keyboard helper raises [SystemExit]. *)
Definition leave (evs : list Event) : TickInput :=
  {| events := evs; human := HumanSystemExit |}.

End ToyScript.

(** * Properties *)

(** ** The scripted action rule of run_pacman.py *)

Lemma scripted_action_block (k j : Z) :
  0 <= j < 10 ->
  RunPacman.scripted_action (10 * k + j) = k mod 4 + 1.
Proof.
  intros Hj. unfold RunPacman.scripted_action.
  replace ((10 * k + j) / 10) with k; [reflexivity|].
  apply (Z.div_unique (10 * k + j) 10 k j); lia.
Qed.

(** C9.  The scripted action is a function of the step index alone, with
    blocks of ten steps: the indices 0 to 9 all give the action of index 0
    (it is 1), index 10 gives a different action than index 9, and over the
    fifty steps of the run the actions are ten 1s, ten 2s, ten 3s, ten 4s
    and ten 1s again. *)
Theorem scripted_action_blocks_of_ten :
  (forall i, 0 <= i <= 9 ->
     RunPacman.scripted_action i = RunPacman.scripted_action 0) /\
  RunPacman.scripted_action 0 = 1 /\
  RunPacman.scripted_action 10 <> RunPacman.scripted_action 9 /\
  RunPacman.scripted_actions
  = repeat 1 10 ++ repeat 2 10 ++ repeat 3 10 ++ repeat 4 10 ++ repeat 1 10.
Proof.
  split; [|split; [reflexivity|split; [discriminate|reflexivity]]].
  intros i Hi.
  replace i with (10 * 0 + i) by lia.
  rewrite scripted_action_block by lia. reflexivity.
Qed.

(** ** The action translation *)

Example translate_up : translate JAXAtariAction.UP = PacmanAction.UP.
Proof. reflexivity. Qed.

Lemma translate_default (a : Z) :
  a <> 0 -> a <> 2 -> a <> 3 -> a <> 4 -> a <> 5 -> translate a = 0.
Proof.
  intros H0 H2 H3 H4 H5. unfold translate, action_map.
  rewrite !lookup_insert_ne by congruence.
  rewrite lookup_empty. reflexivity.
Qed.

(** C6.  The translation is a total function that agrees with the fixed
    table everywhere: the five listed actions go to their namesakes and
    every other value, FIRE and 99 among them, goes to NOOP; the result is
    always a value, never an error. *)
Theorem translate_total_table :
  translate JAXAtariAction.NOOP = PacmanAction.NOOP /\
  translate JAXAtariAction.UP = PacmanAction.UP /\
  translate JAXAtariAction.RIGHT = PacmanAction.RIGHT /\
  translate JAXAtariAction.LEFT = PacmanAction.LEFT /\
  translate JAXAtariAction.DOWN = PacmanAction.DOWN /\
  translate JAXAtariAction.FIRE = PacmanAction.NOOP /\
  translate 99 = PacmanAction.NOOP /\
  (forall a, a ∉ [JAXAtariAction.NOOP; JAXAtariAction.UP;
                  JAXAtariAction.RIGHT; JAXAtariAction.LEFT;
                  JAXAtariAction.DOWN] ->
             translate a = PacmanAction.NOOP) /\
  (forall a, translate a = spec_translate a).
Proof.
  repeat (split; [reflexivity|]).
  split.
  - intros a Ha. apply translate_default; intros ->; apply Ha;
      unfold JAXAtariAction.NOOP, JAXAtariAction.UP, JAXAtariAction.RIGHT,
        JAXAtariAction.LEFT, JAXAtariAction.DOWN; set_solver.
  - intros a. unfold spec_translate.
    repeat (case_decide; [subst a; reflexivity|]).
    apply translate_default; assumption.
Qed.

(** ** The session loop of play_pacman_ui.py *)

Ltac unfold_res :=
  unfold mbind, res_bind, mret, res_ret, bind, ret, emit, call in *.

Section SessionProperties.
Context `{Collaborators}.

(** *** Laws of [Res] *)

Lemma bind_value {A B} (m : Res A) (f : A -> Res B) (a : A) :
  val m = inr a ->
  m ≫= f = MkRes (log m ++ log (f a)) (val (f a)).
Proof. intros Hm. unfold_res. rewrite Hm. reflexivity. Qed.

Lemma bind_raise {A B} (m : Res A) (f : A -> Res B) (e : Exn) :
  val m = inl e ->
  m ≫= f = MkRes (log m) (inl e).
Proof. intros Hm. unfold_res. rewrite Hm. reflexivity. Qed.

Lemma res_eta {A} (m : Res A) : MkRes (log m) (val m) = m.
Proof. destruct m. reflexivity. Qed.




Lemma bind_value_inv {A B} (m : Res A) (f : A -> Res B) (b : B) :
  val (m ≫= f) = inr b ->
  exists a, val m = inr a /\ val (f a) = inr b /\
            log (m ≫= f) = log m ++ log (f a).
Proof.
  unfold_res. destruct (val m) as [e|a]; simpl; [discriminate|].
  intros Hb. exists a. auto.
Qed.

(** *** Resets *)

(** C2.  Both reset sites of the loop, the [K_r] key and the reset on
    done, leave the cumulative reward at 0.0 and the counter one higher,
    from every session state: when the environment's reset returns, the
    site returns a session with exactly these values, holding the
    observation and state the reset gave, after one reset call. *)
Theorem every_reset_zeroes_and_counts
    (env : Env) (st : Session) (obs' : Obs) (state' : EnvState) :
  reset env (fold_in master_key (reset_counter st)) = inr (obs', state') ->
  (exists st',
      val (handle_event env st (KEYDOWN K_r)) = inr st' /\
      total_return st' = 0%float /\
      reset_counter st' = reset_counter st + 1 /\
      obs st' = obs' /\ state st' = state' /\
      reset_keys (log (handle_event env st (KEYDOWN K_r)))
      = [fold_in master_key (reset_counter st)]) /\
  (forall score, exists st',
      val (check_done env st score true) = inr st' /\
      total_return st' = 0%float /\
      reset_counter st' = reset_counter st + 1 /\
      obs st' = obs' /\ state st' = state' /\
      reset_keys (log (check_done env st score true))
      = [fold_in master_key (reset_counter st)]).
Proof.
  intros Hreset. split; [|intros score];
    eexists; simpl; unfold manual_reset; unfold_res; simpl;
    rewrite Hreset; simpl; repeat split; reflexivity.
Qed.

(** C1.  A step that ends the episode: with cumulative reward [c] and a
    step result carrying reward [r] and done, the iteration reports the
    final reward [c + r] (in the Game Over line, before any reset call),
    then resets, and the session it leaves has cumulative reward 0.0 and
    a counter one higher. *)
Theorem done_step_reports_then_resets
    (env : Env) (st : Session) (action : Z)
    (obs1 : Obs) (s1 : EnvState) (r : float)
    (obs2 : Obs) (s2 : EnvState) (image : Frame) :
  pause st = false ->
  step env (state st) (translate action) = inr (obs1, s1, r, true) ->
  reset env (fold_in master_key (reset_counter st)) = inr (obs2, s2) ->
  render env s2 = inr image ->
  exists st' before after,
    val (advance env st (HumanAction action)) = inr st' /\
    total_return st' = 0%float /\
    reset_counter st' = reset_counter st + 1 /\
    log (advance env st (HumanAction action))
    = before
        ++ Print (MsgGameOver (default 0 (obs_score obs1))
                              (total_return st + r)%float)
        :: after /\
    reset_keys before = [] /\
    reset_keys after = [fold_in master_key (reset_counter st)].
Proof.
  intros Hpause Hstep Hreset Hrender.
  eexists _,
    [GetHumanAction; CallStep (state st) (translate action);
     SetCaption (CaptionStatus (default 0 (obs_score obs1))
                   (default 0 (obs_lives obs1))
                   (total_return st + r)%float)],
    _.
  unfold advance, check_done, show. rewrite Hpause. unfold_res. simpl.
  rewrite Hstep. simpl. rewrite Hreset. simpl. rewrite Hrender. simpl.
  repeat split; reflexivity.
Qed.

(** *** Readings of a log, over concatenation *)

Lemma reset_keys_app (a b : list Effect) :
  reset_keys (a ++ b) = reset_keys a ++ reset_keys b.
Proof. apply omap_app. Qed.

Lemma rendered_app (a b : list Effect) :
  rendered (a ++ b) = rendered a ++ rendered b.
Proof. apply omap_app. Qed.

Lemma step_calls_app (a b : list Effect) :
  step_calls (a ++ b) = (step_calls a + step_calls b)%nat.
Proof. unfold step_calls. rewrite filter_app, length_app. reflexivity. Qed.

Lemma polls_app (a b : list Effect) :
  polls (a ++ b) = (polls a + polls b)%nat.
Proof. unfold polls. rewrite filter_app, length_app. reflexivity. Qed.

(** *** Event handling *)

(** Handling events never steps the environment, polls the keyboard
    helper or renders. *)
Lemma handle_event_quiet (env : Env) (st : Session) (event : Event) :
  step_calls (log (handle_event env st event)) = 0%nat /\
  polls (log (handle_event env st event)) = 0%nat /\
  rendered (log (handle_event env st event)) = [].
Proof.
  destruct event as [|[| | |code]|ty]; simpl; auto.
  unfold manual_reset. unfold_res. simpl.
  destruct (reset env _) as [e|[o s]]; simpl; auto.
Qed.

Lemma handle_events_quiet (env : Env) (evs : list Event) (st : Session) :
  step_calls (log (handle_events env st evs)) = 0%nat /\
  polls (log (handle_events env st evs)) = 0%nat /\
  rendered (log (handle_events env st evs)) = [].
Proof.
  revert st. induction evs as [|event rest IH]; intros st; simpl; auto.
  destruct (handle_event_quiet env st event) as (Hs & Hp & Hr).
  destruct (val (handle_event env st event)) as [e|st1] eqn:Hval.
  - rewrite (bind_raise _ _ _ Hval). simpl. repeat split; assumption.
  - rewrite (bind_value _ _ _ Hval). simpl.
    destruct (IH st1) as (Hs' & Hp' & Hr').
    rewrite step_calls_app, polls_app, rendered_app, Hs, Hp, Hr, Hs', Hp', Hr'.
    repeat split.
Qed.

(** Without a [K_r] key among them, the events make no call into the
    environment and leave the episode as it is. *)
Lemma handle_events_no_reset (env : Env) (evs : list Event) (st : Session) :
  KEYDOWN K_r ∉ evs ->
  exists st1,
    val (handle_events env st evs) = inr st1 /\
    state st1 = state st /\ obs st1 = obs st /\
    total_return st1 = total_return st /\
    reset_counter st1 = reset_counter st /\
    reset_keys (log (handle_events env st evs)) = [].
Proof.
  revert st. induction evs as [|event rest IH]; intros st Hno; simpl.
  - exists st. repeat split; reflexivity.
  - assert (Hev : event <> KEYDOWN K_r) by (intros ->; apply Hno; left).
    assert (Hrest : KEYDOWN K_r ∉ rest) by (intros Hin; apply Hno; right; exact Hin).
    assert (Hone : exists st0,
               handle_event env st event = MkRes (log (handle_event env st event)) (inr st0) /\
               state st0 = state st /\ obs st0 = obs st /\
               total_return st0 = total_return st /\
               reset_counter st0 = reset_counter st /\
               reset_keys (log (handle_event env st event)) = []).
    { destruct event as [|[| | |code]|ty]; try congruence;
        eexists; simpl; repeat split; reflexivity. }
    destruct Hone as (st0 & Heq & Hs0 & Ho0 & Ht0 & Hc0 & Hk0).
    destruct (IH st0 Hrest) as (st1 & Hval & Hs1 & Ho1 & Ht1 & Hc1 & Hk1).
    exists st1.
    rewrite (bind_value _ _ st0) by (rewrite Heq; reflexivity). simpl.
    rewrite reset_keys_app, Hk0, Hk1.
    repeat split; congruence.
Qed.

(** *** The pause branch *)

(** C4, as the code has it.  In an iteration that reaches the pause test
    (line 99) paused, nothing after the events touches the session: the
    iteration returns the session the events left, makes no step call,
    does not poll the keyboard helper, and renders that session's state
    once.  When no [K_r] key is among the iteration's events, that state,
    the cumulative reward and the counter are those the iteration
    started with. *)
Theorem paused_iteration_frame
    (env : Env) (st : Session) (inp : TickInput)
    (st1 : Session) (image : Frame) :
  val (handle_events env st (events inp)) = inr st1 ->
  pause st1 = true ->
  render env (state st1) = inr image ->
  val (loop_body env st inp) = inr st1 /\
  step_calls (log (loop_body env st inp)) = 0%nat /\
  polls (log (loop_body env st inp)) = 0%nat /\
  rendered (log (loop_body env st inp)) = [state st1] /\
  (KEYDOWN K_r ∉ events inp ->
   state st1 = state st /\
   total_return st1 = total_return st /\
   reset_counter st1 = reset_counter st /\
   reset_keys (log (loop_body env st inp)) = []).
Proof.
  intros Hev Hpause Hrender.
  destruct (handle_events_quiet env (events inp) st) as (Hs & Hp & Hr).
  assert (Hadv : advance env st1 (human inp)
                 = MkRes [CallRender (state st1);
                          UpdatePygame image UPSCALE_FACTOR 160 210;
                          ClockTick frame_rate] (inr st1)).
  { unfold advance, show. rewrite Hpause. unfold_res. simpl.
    rewrite Hrender. reflexivity. }
  assert (Hbody : loop_body env st inp
                  = MkRes (EventGet :: log (handle_events env st (events inp))
                             ++ [CallRender (state st1);
                                 UpdatePygame image UPSCALE_FACTOR 160 210;
                                 ClockTick frame_rate]) (inr st1)).
  { unfold loop_body.
    rewrite (bind_value (emit EventGet) _ tt) by reflexivity.
    rewrite (bind_value _ _ st1 Hev), Hadv. reflexivity. }
  rewrite Hbody. simpl.
  change (EventGet :: ?l) with ([EventGet] ++ l).
  rewrite !step_calls_app, !polls_app, !rendered_app, !reset_keys_app.
  rewrite Hs, Hp, Hr.
  split; [reflexivity|]. split; [reflexivity|]. split; [reflexivity|].
  split; [reflexivity|].
  intros Hno.
  destruct (handle_events_no_reset env (events inp) st Hno)
    as (st1' & Hval & Hs1 & _ & Ht1 & Hc1 & Hk1).
  rewrite Hev in Hval. injection Hval as <-.
  rewrite Hk1. repeat split; assumption.
Qed.

(** *** The frame shown after a done step *)

(** C5, as the code has it.  After a step with done, the iteration shows
    the caption and the Game Over line of the finished episode, then
    resets, and only then renders: its one render call is on the state
    the reset returned, which is also the state the session holds
    afterwards.  The state the step produced is passed to no call. *)
Theorem done_step_renders_reset_state
    (env : Env) (st : Session) (action : Z)
    (obs1 : Obs) (s1 : EnvState) (r : float)
    (obs2 : Obs) (s2 : EnvState) (image : Frame) :
  pause st = false ->
  step env (state st) (translate action) = inr (obs1, s1, r, true) ->
  reset env (fold_in master_key (reset_counter st)) = inr (obs2, s2) ->
  render env s2 = inr image ->
  log (advance env st (HumanAction action))
  = [GetHumanAction;
     CallStep (state st) (translate action);
     SetCaption (CaptionStatus (default 0 (obs_score obs1))
                   (default 0 (obs_lives obs1))
                   (total_return st + r)%float);
     Print (MsgGameOver (default 0 (obs_score obs1))
              (total_return st + r)%float);
     CallReset (fold_in master_key (reset_counter st));
     CallRender s2;
     UpdatePygame image UPSCALE_FACTOR 160 210;
     ClockTick frame_rate] /\
  rendered (log (advance env st (HumanAction action))) = [s2] /\
  exists st', val (advance env st (HumanAction action)) = inr st' /\
              state st' = s2.
Proof.
  intros Hpause Hstep Hreset Hrender.
  unfold advance, check_done, show. rewrite Hpause. unfold_res. simpl.
  rewrite Hstep. simpl. rewrite Hreset. simpl. rewrite Hrender. simpl.
  repeat split. eexists. split; reflexivity.
Qed.

(** *** Failure to build the environment *)

(** C7, as the code has it.  When [jaxatari.make] raises, the script
    prints the error line and the traceback and [main] returns: no
    pygame call, no environment call, no iteration of the loop, whatever
    input is pending; the script then ends normally, with exit status
    0. *)
Theorem load_failure_reported_then_normal_exit
    (e : Exn) (inputs : list TickInput) :
  script None (inl e) inputs
  = {| output := [Print MsgBanner; Print MsgLoading;
                  Print (MsgLoadError e); Print (MsgTraceback e)];
       exit_status := Some 0 |}.
Proof. reflexivity. Qed.

(** *** Where an exception comes from

    Only the calls into the environment raise, and the call that raised
    is the last one logged. *)

Lemma raises_bind (env : Env) {A B} (m : Res A) (f : A -> Res B) :
  raises_at_last_call env m ->
  (forall a, raises_at_last_call env (f a)) ->
  raises_at_last_call env (m ≫= f).
Proof.
  intros Hm Hf e. unfold_res.
  destruct (val m) as [e'|a] eqn:Hval; cbn [val log].
  - intros [= ->]. apply Hm. exact Hval.
  - intros Hfa. destruct (Hf a e Hfa) as (x & Hlast & Hx).
    exists x. split; [|exact Hx]. rewrite last_app, Hlast. reflexivity.
Qed.

Lemma raises_value (env : Env) {A} (tr : list Effect) (a : A) :
  raises_at_last_call env (MkRes tr (inr a)).
Proof. intros e. discriminate. Qed.

Lemma raises_call (env : Env) {A} (x : Effect) (r : Exn + A) :
  (forall e, r = inl e -> raised_by env x e) ->
  raises_at_last_call env (call x r).
Proof. intros Hx e Hr. exists x. split; [reflexivity|]. apply Hx, Hr. Qed.

Ltac raises :=
  repeat first
    [ apply raises_value
    | apply raises_call; intros ? ?; assumption
    | apply raises_bind; [|intros ?]
    | match goal with |- context [match ?x with _ => _ end] =>
        destruct x end ].

Lemma raises_handle_events (env : Env) (evs : list Event) (st : Session) :
  raises_at_last_call env (handle_events env st evs).
Proof.
  revert st. induction evs as [|event rest IH]; intros st.
  - apply raises_value.
  - cbn [handle_events]. apply raises_bind; [|intros st'; apply IH].
    unfold handle_event, manual_reset. raises.
Qed.

Lemma raises_advance (env : Env) (st : Session) (h : HumanInput) :
  raises_at_last_call env (advance env st h).
Proof. unfold advance, check_done, show. raises. Qed.

Lemma raises_loop_body (env : Env) (st : Session) (inp : TickInput) :
  raises_at_last_call env (loop_body env st inp).
Proof.
  unfold loop_body. apply raises_bind; [apply raises_value|intros _].
  apply raises_bind; [apply raises_handle_events|intros st'].
  apply raises_advance.
Qed.

(** *** Exceptions in the loop *)

(** Running the loop over [pre ++ rest] is running it over [pre] and
    then over [rest]. *)
Lemma main_loop_cons (env : Env) (inp : TickInput) (rest : list TickInput)
    (st : Session) :
  main_loop env (inp :: rest) st
  = if running st then loop_body env st inp ≫= main_loop env rest
    else mret st.
Proof. reflexivity. Qed.

Lemma main_loop_stopped (env : Env) (inputs : list TickInput) (st : Session) :
  running st = false -> main_loop env inputs st = mret st.
Proof.
  intros Hrun. destruct inputs; [reflexivity|].
  rewrite main_loop_cons, Hrun. reflexivity.
Qed.



Lemma raises_main_loop (env : Env) (inputs : list TickInput) (st : Session) :
  raises_at_last_call env (main_loop env inputs st).
Proof.
  revert st. induction inputs as [|inp rest IH]; intros st.
  - apply raises_value.
  - rewrite main_loop_cons. destruct (running st).
    + apply raises_bind; [apply raises_loop_body|intros st'; apply IH].
    + apply raises_value.
Qed.

Lemma raises_session (env : Env) (inputs : list TickInput) :
  raises_at_last_call env (session env inputs).
Proof.
  unfold session. apply raises_bind; [|intros st; apply raises_main_loop].
  unfold start. raises.
Qed.

(** With an environment that never raises, set-up and any number of
    iterations return a session. *)
Lemma session_returns (env : Env) (inputs : list TickInput) :
  never_raises env -> exists st, val (session env inputs) = inr st.
Proof.
  intros (Hreset & Hstep & Hrender).
  destruct (val (session env inputs)) as [e|st] eqn:Hval; [|eauto].
  destruct (raises_session env inputs e Hval) as (x & _ & Hx).
  destruct x; cbn in Hx; try contradiction.
  - destruct (Hreset _ _ Hx).
  - destruct (Hstep _ _ _ Hx).
  - destruct (Hrender _ _ Hx).
Qed.


(** *** The counter and the reset calls *)

Lemma derived_keys_succ (c : Z) (n : nat) :
  derived_keys c (S n) = fold_in master_key c :: derived_keys (c + 1) n.
Proof.
  unfold derived_keys. cbn [seq map]. rewrite Z.add_0_r. f_equal.
  rewrite <- seq_shift, map_map. apply map_ext. intros i.
  f_equal. lia.
Qed.

Lemma derived_keys_app (c : Z) (n m : nat) :
  derived_keys c (n + m)
  = derived_keys c n ++ derived_keys (c + Z.of_nat n) m.
Proof.
  revert c. induction n as [|n IH]; intros c.
  - cbn [Nat.add Z.of_nat]. rewrite Z.add_0_r. reflexivity.
  - cbn [Nat.add]. rewrite !derived_keys_succ, IH. cbn [app].
    do 3 f_equal. lia.
Qed.

Lemma derived_keys_lookup (c : Z) (n i : nat) (k : Key) :
  derived_keys c n !! i = Some k -> k = fold_in master_key (c + Z.of_nat i).
Proof.
  unfold derived_keys. rewrite list_lookup_fmap.
  destruct (seq 0 n !! i) as [j|] eqn:Hj; [|discriminate].
  apply lookup_seq in Hj as [-> _]. intros [= <-]. reflexivity.
Qed.

Lemma counting_bind (f g : Session -> Res Session) :
  counting f -> counting g -> counting (fun st => f st ≫= g).
Proof.
  intros Hf Hg st st' Hval.
  destruct (bind_value_inv _ _ _ Hval) as (st1 & Hv1 & Hv2 & Hlog).
  destruct (Hf st st1 Hv1) as (n & Hkn & Hcn).
  destruct (Hg st1 st' Hv2) as (m & Hkm & Hcm).
  exists (n + m)%nat.
  rewrite Hlog, reset_keys_app, Hkn, Hkm, derived_keys_app, Hcn.
  split; [reflexivity|lia].
Qed.

Lemma counting_handle_event (env : Env) (event : Event) :
  counting (fun st => handle_event env st event).
Proof.
  intros st st'.
  destruct event as [|[| | |code]|ty]; cbn [handle_event];
    try (intros [= <-]; exists 0%nat; cbn; split; [reflexivity|lia]).
  unfold manual_reset. unfold_res. cbn [val log].
  destruct (reset env _) as [e|[o s]]; cbn [val log]; [discriminate|].
  intros [= <-]. exists 1%nat. cbn. rewrite Z.add_0_r.
  split; reflexivity.
Qed.

Lemma counting_handle_events (env : Env) (evs : list Event) :
  counting (fun st => handle_events env st evs).
Proof.
  induction evs as [|event rest IH].
  - intros st st' [= <-]. exists 0%nat. cbn. split; [reflexivity|lia].
  - apply (counting_bind (fun st => handle_event env st event)
                         (fun st => handle_events env st rest)).
    + apply counting_handle_event.
    + exact IH.
Qed.

Lemma counting_advance (env : Env) (h : HumanInput) :
  counting (fun st => advance env st h).
Proof.
  intros st st'. unfold advance.
  destruct (pause st) eqn:Hpause.
  - unfold show. unfold_res. simpl.
    destruct (render env (state st)) as [e|image]; simpl;
      [discriminate|].
    intros [= <-]. exists 0%nat. cbn. split; [reflexivity|lia].
  - destruct h as [action|].
    + unfold check_done, show. unfold_res. simpl.
      destruct (step env (state st) (translate action))
        as [e|[[[o s] r] d]]; simpl; [discriminate|].
      destruct d; simpl.
      * destruct (reset env (fold_in master_key (reset_counter st)))
          as [e|[o2 s2]]; simpl; [discriminate|].
        destruct (render env s2) as [e|image]; simpl;
          [discriminate|].
        intros [= <-]. exists 1%nat. cbn. rewrite Z.add_0_r.
        split; reflexivity.
      * destruct (render env s) as [e|image]; simpl;
          [discriminate|].
        intros [= <-]. exists 0%nat. cbn. split; [reflexivity|lia].
    + unfold_res. simpl. intros [= <-]. exists 0%nat. cbn.
      split; [reflexivity|lia].
Qed.

Lemma counting_loop_body (env : Env) (inp : TickInput) :
  counting (fun st => loop_body env st inp).
Proof.
  intros st st' Hval. unfold loop_body in *.
  rewrite (bind_value (emit EventGet) _ tt) in * by reflexivity.
  cbn [val log emit app] in *.
  apply (counting_bind (fun st => handle_events env st (events inp))
                       (fun st => advance env st (human inp))
           (counting_handle_events env (events inp))
           (counting_advance env (human inp)) st st' Hval).
Qed.

Lemma counting_main_loop (env : Env) (inputs : list TickInput) :
  counting (main_loop env inputs).
Proof.
  induction inputs as [|inp rest IH].
  - intros st st' [= <-]. exists 0%nat. cbn. split; [reflexivity|lia].
  - intros st st'. rewrite main_loop_cons.
    destruct (running st).
    + apply (counting_bind (fun st => loop_body env st inp)
                           (main_loop env rest)
               (counting_loop_body env inp) IH).
    + intros [= <-]. exists 0%nat. cbn. split; [reflexivity|lia].
Qed.

(** Set-up makes the first reset call, with counter value 0, and leaves
    the counter at 1. *)
Lemma start_counts (env : Env) (st0 : Session) :
  val (start env) = inr st0 ->
  reset_counter st0 = 1 /\
  reset_keys (log (start env)) = [fold_in master_key 0].
Proof.
  unfold start. unfold_res. cbn [val log].
  destruct (reset env _) as [e|[o s]]; cbn [val log]; [discriminate|].
  destruct (render env s) as [e|image]; cbn [val log]; [discriminate|].
  intros [= <-]. split; reflexivity.
Qed.

(** The reset calls of a session that returns: the counter values 0 to
    [n], once each and in order, with the counter left at [n + 1]. *)
Lemma session_counts (env : Env) (inputs : list TickInput) (st : Session) :
  val (session env inputs) = inr st ->
  exists n : nat,
    reset_keys (log (session env inputs)) = derived_keys 0 (S n) /\
    reset_counter st = Z.of_nat (S n).
Proof.
  intros Hval. unfold session in *.
  destruct (bind_value_inv _ _ _ Hval) as (st0 & Hstart & Hloop & Hlog).
  destruct (start_counts env st0 Hstart) as (Hc0 & Hk0).
  destruct (counting_main_loop env inputs st0 st Hloop) as (n & Hkn & Hcn).
  exists n. rewrite Hlog, reset_keys_app, Hk0, Hkn, Hc0, derived_keys_succ.
  split; [reflexivity|lia].
Qed.

(** C10.  Whenever the session returns (after set-up and any number of
    iterations), the counter equals the number of reset calls made so
    far, and the reset call at position [i], counted from 0, used the key
    folded from counter value [i], so the n-th call counted from 1 used
    [n - 1].  Set-up itself makes exactly one reset call, with counter
    value 0, and leaves the counter at 1.  With an environment that never
    raises, the session does return. *)
Theorem reset_counter_counts_reset_calls
    (env : Env) (inputs : list TickInput) :
  (never_raises env -> exists st, val (session env inputs) = inr st) /\
  (forall st, val (session env inputs) = inr st ->
     reset_counter st
     = Z.of_nat (length (reset_keys (log (session env inputs)))) /\
     (forall (i : nat) (k : Key),
         reset_keys (log (session env inputs)) !! i = Some k ->
         k = fold_in master_key (Z.of_nat i)) /\
     (exists st0, val (start env) = inr st0 /\
                  reset_counter st0 = 1 /\
                  reset_keys (log (start env)) = [fold_in master_key 0])).
Proof.
  split; [apply session_returns|].
  intros st Hval.
  destruct (session_counts env inputs st Hval) as (n & Hkeys & Hcount).
  rewrite Hkeys. split; [|split].
  - unfold derived_keys. rewrite length_map, length_seq. exact Hcount.
  - intros i k Hik. apply derived_keys_lookup in Hik. exact Hik.
  - unfold session in Hval.
    destruct (bind_value_inv _ _ _ Hval) as (st0 & Hstart & _).
    exists st0. split; [exact Hstart|]. apply start_counts, Hstart.
Qed.

(** *** Seeds

    What the loop contributes to the seeds being fresh: it never uses a
    counter value twice.  Whether two counter values can fold to the same
    key is a property of [fold_in], which is JAX's. *)
Lemma derived_keys_NoDup (c : Z) (n : nat) :
  (forall i j, fold_in master_key i = fold_in master_key j -> i = j) ->
  NoDup (derived_keys c n).
Proof.
  intros Hinj. unfold derived_keys.
  apply NoDup_fmap_2_strong; [|apply NoDup_seq].
  intros i j _ _ Hij. apply Hinj in Hij. lia.
Qed.

Lemma session_keys_NoDup (env : Env) (inputs : list TickInput) (st : Session) :
  (forall i j, fold_in master_key i = fold_in master_key j -> i = j) ->
  val (session env inputs) = inr st ->
  NoDup (reset_keys (log (session env inputs))).
Proof.
  intros Hinj Hval.
  destruct (session_counts env inputs st Hval) as (n & -> & _).
  apply derived_keys_NoDup, Hinj.
Qed.

End SessionProperties.

(** ** Runs of the countdown game *)

Section ToyRuns.
Local Existing Instance Toy.world.

Example toy_done_tick :
  advance Toy.countdown Toy.last_move (HumanAction JAXAtariAction.RIGHT)
  = MkRes [GetHumanAction; CallStep 1 2; SetCaption (CaptionStatus 20 3 15);
           Print (MsgGameOver 20 15); CallReset 42001; CallRender 2;
           UpdatePygame 2 4 160 210; ClockTick 30]
          (inr {| running := true; pause := false; reset_counter := 2;
                  total_return := 0; obs := (0, 3); state := 2 |}).
Proof. reflexivity. Qed.

(** The scripted rule inside its first block. *)
Lemma scripted_action_at_7 :
  RunPacman.scripted_action 7 = RunPacman.scripted_action 0.
Proof. apply (proj1 scripted_action_blocks_of_ten 7). lia. Defined.

(** A composite action outside the table. *)
Lemma translate_at_6 : translate 6 = PacmanAction.NOOP.
Proof.
  apply (proj1 (proj2 (proj2 (proj2 (proj2 (proj2 (proj2 (proj2
           translate_total_table)))))))).
  intros Hin.
  repeat (apply elem_of_cons in Hin as [Hin|Hin]; [discriminate Hin|]).
  apply elem_of_nil in Hin. exact Hin.
Defined.

(** The scenario of the specification: 10.0 collected, a last step worth
    5.0 that ends the episode. *)
Lemma done_step_from_10_reports_15 :
  exists st' before after,
    val (advance Toy.countdown Toy.last_move (HumanAction 3)) = inr st' /\
    total_return st' = 0%float /\
    reset_counter st' = 2 /\
    log (advance Toy.countdown Toy.last_move (HumanAction 3))
    = before ++ Print (MsgGameOver 20 15%float) :: after /\
    reset_keys before = [] /\
    reset_keys after = [42001].
Proof.
  apply (done_step_reports_then_resets Toy.countdown Toy.last_move 3
           (20, 3) 0 5%float (0, 3) 2 2); reflexivity.
Defined.

Lemma toy_resets_zero_and_count :
  (exists st',
      val (handle_event Toy.countdown Toy.last_move (KEYDOWN K_r)) = inr st' /\
      total_return st' = 0%float /\
      reset_counter st' = 2 /\
      obs st' = (0, 3) /\ state st' = 2 /\
      reset_keys (log (handle_event Toy.countdown Toy.last_move (KEYDOWN K_r)))
      = [42001]) /\
  (forall score, exists st',
      val (check_done Toy.countdown Toy.last_move score true) = inr st' /\
      total_return st' = 0%float /\
      reset_counter st' = 2 /\
      obs st' = (0, 3) /\ state st' = 2 /\
      reset_keys (log (check_done Toy.countdown Toy.last_move score true))
      = [42001]).
Proof.
  apply (every_reset_zeroes_and_counts Toy.countdown Toy.last_move (0, 3) 2).
  reflexivity.
Defined.

(** A paused iteration in which the pause key is pressed twice and
    another key once. *)
Lemma toy_paused_iteration :
  val (loop_body Toy.countdown Toy.paused
         (Toy.tick [KEYDOWN K_p; KEYDOWN (K_other 32); KEYDOWN K_p] 3))
  = inr Toy.paused /\
  step_calls (log (loop_body Toy.countdown Toy.paused
         (Toy.tick [KEYDOWN K_p; KEYDOWN (K_other 32); KEYDOWN K_p] 3))) = 0%nat /\
  polls (log (loop_body Toy.countdown Toy.paused
         (Toy.tick [KEYDOWN K_p; KEYDOWN (K_other 32); KEYDOWN K_p] 3))) = 0%nat /\
  rendered (log (loop_body Toy.countdown Toy.paused
         (Toy.tick [KEYDOWN K_p; KEYDOWN (K_other 32); KEYDOWN K_p] 3))) = [1] /\
  (KEYDOWN K_r ∉ [KEYDOWN K_p; KEYDOWN (K_other 32); KEYDOWN K_p] ->
   state Toy.paused = 1 /\
   total_return Toy.paused = 10%float /\
   reset_counter Toy.paused = 1 /\
   reset_keys (log (loop_body Toy.countdown Toy.paused
         (Toy.tick [KEYDOWN K_p; KEYDOWN (K_other 32); KEYDOWN K_p] 3))) = []).
Proof.
  apply (paused_iteration_frame Toy.countdown Toy.paused
           (Toy.tick [KEYDOWN K_p; KEYDOWN (K_other 32); KEYDOWN K_p] 3)
           Toy.paused 1); reflexivity.
Defined.

(** C4 as stated fails: the session is paused before and after the
    events of this iteration, yet the [K_r] key among them replaces the
    state, zeroes the cumulative reward and moves the counter; the frame
    rendered is that of the new state. *)
Lemma paused_iteration_with_reset_key :
  pause Toy.paused = true /\
  exists st',
    val (loop_body Toy.countdown Toy.paused (Toy.tick [KEYDOWN K_r] 3))
    = inr st' /\
    pause st' = true /\
    state st' <> state Toy.paused /\
    total_return st' <> total_return Toy.paused /\
    reset_counter st' <> reset_counter Toy.paused /\
    rendered (log (loop_body Toy.countdown Toy.paused
                     (Toy.tick [KEYDOWN K_r] 3)))
    = [state st'].
Proof.
  split; [reflexivity|]. eexists. split; [reflexivity|].
  split; [reflexivity|]. split; [discriminate|].
  split; [|split; [discriminate|reflexivity]].
  intros Heq. apply (f_equal (fun x => PrimFloat.eqb x 0)) in Heq.
  vm_compute in Heq. discriminate.
Qed.

Lemma toy_done_step_renders_reset_state :
  log (advance Toy.countdown Toy.last_move (HumanAction 3))
  = [GetHumanAction; CallStep 1 2; SetCaption (CaptionStatus 20 3 15);
     Print (MsgGameOver 20 15); CallReset 42001; CallRender 2;
     UpdatePygame 2 4 160 210; ClockTick 30] /\
  rendered (log (advance Toy.countdown Toy.last_move (HumanAction 3))) = [2] /\
  exists st', val (advance Toy.countdown Toy.last_move (HumanAction 3)) = inr st' /\
              state st' = 2.
Proof.
  apply (done_step_renders_reset_state Toy.countdown Toy.last_move 3
           (20, 3) 0 5%float (0, 3) 2 2); reflexivity.
Defined.

(** C5 as stated fails: a whole episode of the countdown game.  The
    second step returns done with state 0; the states rendered during the
    session are the initial one, the one after the first step and the one
    after the reset, and 0 is not among them. *)
Lemma terminal_state_is_not_rendered :
  step Toy.countdown 1 (translate 3) = inr ((20, 3), 0, 5%float, true) /\
  rendered (log (session Toy.countdown [Toy.tick [] 3; Toy.tick [] 3]))
  = [2; 1; 2] /\
  0 ∉ rendered (log (session Toy.countdown [Toy.tick [] 3; Toy.tick [] 3])).
Proof.
  assert (Hshown : rendered (log (session Toy.countdown
                                     [Toy.tick [] 3; Toy.tick [] 3]))
                   = [2; 1; 2]) by reflexivity.
  split; [reflexivity|]. split; [exact Hshown|].
  rewrite Hshown. intros Hin.
  repeat (apply elem_of_cons in Hin as [Hin|Hin]; [discriminate Hin|]).
  apply elem_of_nil in Hin. exact Hin.
Qed.

(** C7 as stated fails: the environment cannot be built, and the exit
    status is 0. *)
Lemma load_failure_exits_with_status_0 :
  exit_status (script None (inl 7) [Toy.tick [] 3]) = Some 0.
Proof. reflexivity. Qed.



Lemma toy_counter_counts_resets :
  reset_counter Toy.final
  = Z.of_nat (length (reset_keys (log (session Toy.countdown Toy.inputs)))) /\
  (forall (i : nat) (k : Z),
      reset_keys (log (session Toy.countdown Toy.inputs)) !! i = Some k ->
      k = 1000 * 42 + Z.of_nat i) /\
  (exists st0, val (start Toy.countdown) = inr st0 /\
               reset_counter st0 = 1 /\
               reset_keys (log (start Toy.countdown)) = [42000]).
Proof.
  apply (proj2 (reset_counter_counts_reset_calls Toy.countdown Toy.inputs)
           Toy.final).
  reflexivity.
Defined.

End ToyRuns.


(** * Further properties of play_pacman_ui.py *)

Section LoopProperties.
Context `{Collaborators}.

(** *** Properties of every call made *)

Lemma every_bind (P : Effect -> Prop) {A B} (m : Res A) (f : A -> Res B) :
  every_effect P m -> (forall a, every_effect P (f a)) ->
  every_effect P (m ≫= f).
Proof.
  unfold every_effect. intros Hm Hf. unfold_res.
  destruct (val m) as [e|a]; cbn [log]; [exact Hm|].
  apply Forall_app. split; [exact Hm|apply Hf].
Qed.

Lemma every_ret (P : Effect -> Prop) {A} (a : A) :
  every_effect P (mret a : Res A).
Proof. apply Forall_nil_2. Qed.

Lemma every_emit (P : Effect -> Prop) (x : Effect) :
  P x -> every_effect P (emit x).
Proof. intros Hx. apply Forall_cons. split; [exact Hx|apply Forall_nil_2]. Qed.

Lemma every_call (P : Effect -> Prop) {A} (x : Effect) (r : Exn + A) :
  P x -> every_effect P (call x r).
Proof. intros Hx. apply Forall_cons. split; [exact Hx|apply Forall_nil_2]. Qed.

Ltac every :=
  repeat first
    [ apply every_ret
    | apply every_emit; exact I
    | apply every_call; first [exact I | eexists; reflexivity]
    | apply every_bind; [|intros ?]
    | match goal with |- context [match ?x with _ => _ end] =>
        destruct x end ].

Lemma loop_effect_handle_events (env : Env) (evs : list Event) (st : Session) :
  every_effect loop_effect (handle_events env st evs).
Proof.
  revert st. induction evs as [|event rest IH]; intros st.
  - apply every_ret.
  - cbn [handle_events]. apply every_bind; [|intros st'; apply IH].
    unfold handle_event, manual_reset. every.
Qed.

Lemma loop_effect_advance (env : Env) (st : Session) (h : HumanInput) :
  every_effect loop_effect (advance env st h).
Proof. unfold advance, check_done, show. every. Qed.

Lemma loop_effect_main_loop (env : Env) (inputs : list TickInput)
    (st : Session) :
  every_effect loop_effect (main_loop env inputs st).
Proof.
  revert st. induction inputs as [|inp rest IH]; intros st.
  - apply every_ret.
  - rewrite main_loop_cons. destruct (running st); [|apply every_ret].
    apply every_bind; [|intros st'; apply IH].
    unfold loop_body. apply every_bind; [apply every_emit; exact I|intros _].
    apply every_bind; [apply loop_effect_handle_events|intros st'].
    apply loop_effect_advance.
Qed.

Lemma loop_effect_session (env : Env) (inputs : list TickInput) :
  every_effect loop_effect (session env inputs).
Proof.
  unfold session. apply every_bind; [|intros st; apply loop_effect_main_loop].
  unfold start. every.
Qed.

Lemma translate_range (a : Z) : 0 <= translate a <= 4.
Proof.
  destruct (decide (a = 0)) as [->|H0]; [vm_compute; split; discriminate|].
  destruct (decide (a = 2)) as [->|H2]; [vm_compute; split; discriminate|].
  destruct (decide (a = 3)) as [->|H3]; [vm_compute; split; discriminate|].
  destruct (decide (a = 4)) as [->|H4]; [vm_compute; split; discriminate|].
  destruct (decide (a = 5)) as [->|H5]; [vm_compute; split; discriminate|].
  rewrite translate_default by assumption. lia.
Qed.

Lemma loop_effect_in_vocabulary (x : Effect) :
  loop_effect x -> pacman_action_only x.
Proof.
  destruct x; cbn; try (intros; exact I).
  intros [action_int ->]. apply translate_range.
Qed.

(** The shape of [main]'s log when the environment was built. *)
Lemma main_built (env : Env) (inputs : list TickInput) :
  main (inr env) inputs
  = MkRes ([Print MsgBanner; Print MsgLoading; Print MsgLoaded]
             ++ log (session env inputs)
             ++ match val (session env inputs) with
                | inr st => if running st then []
                            else [PygameQuit; Print MsgClosed]
                | inl _ => []
                end)
          (match val (session env inputs) with
           | inr st => inr (if running st then InLoop st else Closed st)
           | inl e => inl e
           end).
Proof.
  unfold main.
  rewrite !(bind_value (emit _) _ tt) by reflexivity. cbn [log val emit app].
  destruct (val (session env inputs)) as [e|st] eqn:Hval.
  - rewrite (bind_raise _ _ _ Hval), app_nil_r. reflexivity.
  - rewrite (bind_value _ _ _ Hval).
    destruct (running st); reflexivity.
Qed.

(** X1.  Whatever the keyboard helper returns and whatever happens, every
    action the process passes to the environment's step is one of the
    five Pacman actions 0 to 4. *)
Theorem step_actions_in_vocabulary
    (imports : option Exn) (make : Exn + Env) (inputs : list TickInput) :
  Forall (fun a => 0 <= a <= 4)
         (step_actions (output (script imports make inputs))).
Proof.
  assert (Hstep : forall tr, Forall pacman_action_only tr ->
                             Forall (fun a => 0 <= a <= 4) (step_actions tr)).
  { intros tr Htr. induction Htr as [|x tr Hx _ IH]; [constructor|].
    unfold step_actions in *. destruct x; cbn; try exact IH.
    constructor; [exact Hx|exact IH]. }
  assert (Hhandler : forall e, Forall pacman_action_only (handler e)).
  { intros e. unfold handler. destruct (is_import_error e);
      repeat constructor. }
  assert (Hmain : Forall pacman_action_only (log (main make inputs))).
  { destruct make as [e|env]; [repeat constructor|].
    rewrite main_built. cbn [log]. repeat constructor.
    apply Forall_app. split.
    - eapply Forall_impl; [apply loop_effect_session|].
      apply loop_effect_in_vocabulary.
    - destruct (val (session env inputs)) as [e|st]; [constructor|].
      destruct (running st); repeat constructor. }
  apply Hstep. unfold script. destruct imports as [e|]; [apply Hhandler|].
  destruct (val (main make inputs)) as [e|[|st|st]]; cbn [output];
    try exact Hmain.
  apply Forall_app. split; [exact Hmain|apply Hhandler].
Qed.

(** X2.  [pygame.quit()] is called exactly when the loop is left through
    [running] becoming false: an exception raised during set-up or in an
    iteration, and a failure to build the environment, end the process
    without it. *)
Theorem pygame_quit_only_on_close
    (make : Exn + Env) (inputs : list TickInput) :
  PygameQuit ∈ output (script None make inputs)
  <-> exists st, val (main make inputs) = inr (Closed st).
Proof.
  assert (Hhandler : forall e, PygameQuit ∉ handler e).
  { intros e. unfold handler. destruct (is_import_error e); intros Hin;
      repeat (apply elem_of_cons in Hin as [Hin|Hin]; [discriminate Hin|]);
      apply elem_of_nil in Hin; exact Hin. }
  destruct make as [e|env].
  - split.
    + cbn. intros Hin.
      repeat (apply elem_of_cons in Hin as [Hin|Hin]; [discriminate Hin|]).
      apply elem_of_nil in Hin. destruct Hin.
    + intros [st Hst]. discriminate Hst.
  - assert (Hsession : PygameQuit ∉ log (session env inputs)).
    { intros Hin. pose proof (loop_effect_session env inputs) as Hall.
      unfold every_effect in Hall. rewrite Forall_forall in Hall.
      exact (Hall _ Hin). }
    unfold script. rewrite main_built. cbn [val log].
    destruct (val (session env inputs)) as [e|st].
    + cbn [output]. split.
      * rewrite app_nil_r. intros Hin.
        apply elem_of_app in Hin as [Hin|Hin]; [|destruct (Hhandler e Hin)].
        repeat (apply elem_of_cons in Hin as [Hin|Hin]; [discriminate Hin|]).
        destruct (Hsession Hin).
      * intros [st Hst]. discriminate Hst.
    + destruct (running st); cbn [output].
      * split; [|intros [st' Hst]; discriminate Hst].
        rewrite app_nil_r. intros Hin.
        repeat (apply elem_of_cons in Hin as [Hin|Hin]; [discriminate Hin|]).
        destruct (Hsession Hin).
      * split; [intros _; exists st; reflexivity|].
        intros _. do 3 apply list_elem_of_further.
        apply elem_of_app. right. apply list_elem_of_here.
Qed.

(** *** What the events do *)

Lemma toggles_cons (event : Event) (evs : list Event) :
  toggles (event :: evs)
  = ((if is_toggle event then 1 else 0) + toggles evs)%nat.
Proof.
  unfold toggles. rewrite filter_cons.
  destruct (is_toggle event); reflexivity.
Qed.

Lemma reset_presses_cons (event : Event) (evs : list Event) :
  reset_presses (event :: evs)
  = ((if is_reset_key event then 1 else 0) + reset_presses evs)%nat.
Proof.
  unfold reset_presses. rewrite filter_cons.
  destruct (is_reset_key event); reflexivity.
Qed.

Lemma handle_event_flags (env : Env) (st st' : Session) (event : Event) :
  val (handle_event env st event) = inr st' ->
  pause st' = xorb (pause st) (is_toggle event) /\
  running st' = running st && negb (is_quit event) /\
  reset_counter st'
  = reset_counter st + (if is_reset_key event then 1 else 0) /\
  (is_reset_key event = false ->
   state st' = state st /\ obs st' = obs st /\
   total_return st' = total_return st).
Proof.
  destruct event as [|[| | |code]|ty]; cbn [handle_event].
  all: try (intros [= <-]; cbn;
            rewrite ?xorb_false_r, ?xorb_true_r, ?andb_true_r, ?andb_false_r,
              ?Z.add_0_r; repeat split; reflexivity).
  unfold manual_reset. unfold_res. cbn [val log].
  destruct (reset env _) as [e|[o s]]; cbn [val log]; [discriminate|].
  intros [= <-]. cbn. rewrite xorb_false_r, andb_true_r.
  repeat split; discriminate.
Qed.

(** X3.  What a batch of events that is handled to the end leaves behind:
    the pause flag is flipped once per P press, [running] is cleared by a
    QUIT event or an ESC press and by nothing else, and the counter has
    grown by the number of R presses; without an R press the episode
    (state, observation, cumulative reward) is untouched. *)
Theorem events_set_flags
    (env : Env) (evs : list Event) (st st1 : Session) :
  val (handle_events env st evs) = inr st1 ->
  pause st1 = xorb (pause st) (Nat.odd (toggles evs)) /\
  running st1 = running st && negb (existsb is_quit evs) /\
  reset_counter st1 = reset_counter st + Z.of_nat (reset_presses evs) /\
  (reset_presses evs = 0%nat ->
   state st1 = state st /\ obs st1 = obs st /\
   total_return st1 = total_return st).
Proof.
  revert st. induction evs as [|event rest IH]; intros st Hval.
  - injection Hval as <-. cbn.
    rewrite xorb_false_r, andb_true_r, Z.add_0_r. repeat split.
  - cbn [handle_events] in Hval.
    destruct (bind_value_inv _ _ _ Hval) as (st0 & Hev & Hrest & _).
    destruct (handle_event_flags env st st0 event Hev)
      as (Hp0 & Hr0 & Hc0 & Hs0).
    destruct (IH st0 Hrest) as (Hp1 & Hr1 & Hc1 & Hs1).
    rewrite toggles_cons, reset_presses_cons. cbn [existsb].
    split; [|split; [|split]].
    + rewrite Hp1, Hp0.
      destruct (is_toggle event); cbn [Nat.add].
      * rewrite Nat.odd_succ, <- Nat.negb_odd.
        destruct (pause st), (Nat.odd (toggles rest)); reflexivity.
      * rewrite xorb_false_r. reflexivity.
    + rewrite Hr1, Hr0, negb_orb, andb_assoc. reflexivity.
    + rewrite Hc1, Hc0. destruct (is_reset_key event); lia.
    + intros Hnone. destruct (is_reset_key event) eqn:Hkey; [discriminate|].
      destruct (Hs0 eq_refl) as (Ha & Hb & Hc).
      destruct (Hs1 Hnone) as (Ha' & Hb' & Hc').
      repeat split; congruence.
Qed.

(** *** A step that does not end the episode *)

(** X4.  An unpaused iteration whose step returns without done: the
    keyboard helper is polled once, the step gets the current state and
    the translated action, the session takes the returned observation and
    state and adds the reward to the cumulative reward, the counter stays,
    no reset is called, the caption shows score and lives (0 for one the
    observation lacks), and the new state is rendered. *)
Theorem live_step_updates_session
    (env : Env) (st : Session) (action : Z)
    (obs1 : Obs) (s1 : EnvState) (r : float) (image : Frame) :
  pause st = false ->
  step env (state st) (translate action) = inr (obs1, s1, r, false) ->
  render env s1 = inr image ->
  advance env st (HumanAction action)
  = MkRes [GetHumanAction;
           CallStep (state st) (translate action);
           SetCaption (CaptionStatus (default 0 (obs_score obs1))
                         (default 0 (obs_lives obs1))
                         (total_return st + r)%float);
           CallRender s1;
           UpdatePygame image UPSCALE_FACTOR 160 210;
           ClockTick frame_rate]
          (inr {| running := running st; pause := false;
                  reset_counter := reset_counter st;
                  total_return := (total_return st + r)%float;
                  obs := obs1; state := s1 |}).
Proof.
  intros Hpause Hstep Hrender.
  unfold advance, check_done, show. rewrite Hpause. unfold_res. simpl.
  rewrite Hstep. simpl. rewrite Hrender. reflexivity.
Qed.

(** *** Leaving the loop *)

(** X5.  When the keyboard helper raises [SystemExit] in an unpaused
    iteration, that iteration ends at once, with no step, no caption, no
    render and no clock tick, and the loop is over: the session comes
    back with [running] false and otherwise as the events left it, and no
    later input is looked at. *)
Theorem keyboard_exit_stops_loop
    (env : Env) (st st1 : Session) (inp : TickInput)
    (rest : list TickInput) :
  running st = true ->
  val (handle_events env st (events inp)) = inr st1 ->
  pause st1 = false ->
  human inp = HumanSystemExit ->
  main_loop env (inp :: rest) st
  = MkRes (EventGet :: log (handle_events env st (events inp))
             ++ [GetHumanAction])
          (inr (set_running false st1)).
Proof.
  intros Hrun Hev Hpause Hhuman.
  rewrite main_loop_cons, Hrun. unfold loop_body.
  rewrite (bind_value (emit EventGet) _ tt) by reflexivity.
  rewrite (bind_value _ _ _ Hev).
  unfold advance. rewrite Hpause, Hhuman.
  rewrite (bind_value (emit GetHumanAction) _ tt) by reflexivity.
  cbn [log val emit app].
  rewrite (bind_value _ _ (set_running false st1)) by reflexivity.
  cbn [log val].
  rewrite main_loop_stopped by reflexivity.
  cbn [log val mret res_ret ret]. rewrite !app_nil_r. reflexivity.
Qed.

Lemma advance_keeps_flags (env : Env) (st st' : Session) (h : HumanInput) :
  val (advance env st h) = inr st' ->
  pause st' = pause st /\
  running st' = running st && match h with
                              | HumanSystemExit => pause st
                              | HumanAction _ => true
                              end.
Proof.
  unfold advance. destruct (pause st) eqn:Hpause.
  - unfold show. unfold_res. simpl.
    destruct (render env (state st)) as [e|image]; simpl; [discriminate|].
    intros [= <-]. rewrite Hpause. destruct h; rewrite andb_true_r; auto.
  - destruct h as [action|].
    + unfold check_done, show. unfold_res. simpl.
      destruct (step env (state st) (translate action))
        as [e|[[[o s] r] d]]; simpl; [discriminate|].
      destruct d; simpl.
      * destruct (reset env (fold_in master_key (reset_counter st)))
          as [e|[o2 s2]]; simpl; [discriminate|].
        destruct (render env s2) as [e|image]; simpl; [discriminate|].
        intros [= <-]. cbn. rewrite andb_true_r. auto.
      * destruct (render env s) as [e|image]; simpl; [discriminate|].
        intros [= <-]. cbn. rewrite andb_true_r. auto.
    + unfold_res. simpl. intros [= <-]. cbn. rewrite andb_false_r. auto.
Qed.

Lemma advance_steps_once (env : Env) (st : Session) (action : Z) :
  pause st = false ->
  step_calls (log (advance env st (HumanAction action))) = 1%nat.
Proof.
  intros Hpause. unfold advance, check_done, show. rewrite Hpause.
  unfold_res. simpl.
  destruct (step env (state st) (translate action))
    as [e|[[[o s] r] d]]; simpl; [reflexivity|].
  destruct d; simpl.
  - destruct (reset env (fold_in master_key (reset_counter st)))
      as [e|[o2 s2]]; simpl; [reflexivity|].
    destruct (render env s2) as [e|image]; reflexivity.
  - destruct (render env s) as [e|image]; reflexivity.
Qed.

(** X6.  A QUIT event or an ESC press does not cut the iteration short:
    the iteration it arrives in runs to its end (when unpaused and the
    helper returns an action, the environment is still stepped once), and
    only then is the loop over; it is the last iteration whatever input
    is still pending, and the session it returns has [running] false. *)
Theorem quit_event_finishes_iteration
    (env : Env) (st : Session) (inp : TickInput) (rest : list TickInput) :
  running st = true ->
  existsb is_quit (events inp) = true ->
  main_loop env (inp :: rest) st = loop_body env st inp /\
  (forall st', val (loop_body env st inp) = inr st' -> running st' = false) /\
  (forall st1 action,
      val (handle_events env st (events inp)) = inr st1 ->
      pause st1 = false ->
      human inp = HumanAction action ->
      step_calls (log (loop_body env st inp)) = 1%nat).
Proof.
  intros Hrun Hquit.
  assert (Hstop : forall st', val (loop_body env st inp) = inr st' ->
                              running st' = false).
  { intros st' Hval. unfold loop_body in Hval.
    rewrite (bind_value (emit EventGet) _ tt) in Hval by reflexivity.
    cbn [val] in Hval.
    destruct (bind_value_inv _ _ _ Hval) as (st1 & Hev & Hadv & _).
    destruct (events_set_flags env _ _ _ Hev) as (_ & Hr1 & _).
    destruct (advance_keeps_flags env _ _ _ Hadv) as (_ & Hr2).
    rewrite Hr2, Hr1, Hquit, andb_false_r. reflexivity. }
  split; [|split; [exact Hstop|]].
  - rewrite main_loop_cons, Hrun.
    destruct (val (loop_body env st inp)) as [e|st'] eqn:Hval.
    + rewrite (bind_raise _ _ _ Hval), <- Hval. apply res_eta.
    + rewrite (bind_value _ _ _ Hval).
      rewrite main_loop_stopped by (apply Hstop; reflexivity).
      cbn [log val mret res_ret ret]. rewrite app_nil_r, <- Hval.
      apply res_eta.
  - intros st1 action Hev Hpause Hhuman. unfold loop_body.
    rewrite (bind_value (emit EventGet) _ tt) by reflexivity.
    rewrite (bind_value _ _ _ Hev), Hhuman. cbn [log emit].
    destruct (handle_events_quiet env (events inp) st) as (Hs & _).
    rewrite !step_calls_app, Hs, advance_steps_once by exact Hpause.
    reflexivity.
Qed.

(** *** Failures during set-up *)


(** *** What is rendered *)

Lemma advance_rendered (env : Env) (st st' : Session) (h : HumanInput) :
  val (advance env st h) = inr st' ->
  rendered (log (advance env st h))
  = if pause st then [state st']
    else match h with
         | HumanAction _ => [state st']
         | HumanSystemExit => []
         end.
Proof.
  unfold advance. destruct (pause st) eqn:Hpause.
  - unfold show. unfold_res. simpl.
    destruct (render env (state st)) as [e|image]; simpl; [discriminate|].
    intros [= <-]. reflexivity.
  - destruct h as [action|].
    + unfold check_done, show. unfold_res. simpl.
      destruct (step env (state st) (translate action))
        as [e|[[[o s] r] d]]; simpl; [discriminate|].
      destruct d; simpl.
      * destruct (reset env (fold_in master_key (reset_counter st)))
          as [e|[o2 s2]]; simpl; [discriminate|].
        destruct (render env s2) as [e|image]; simpl; [discriminate|].
        intros [= <-]. reflexivity.
      * destruct (render env s) as [e|image]; simpl; [discriminate|].
        intros [= <-]. reflexivity.
    + unfold_res. simpl. intros [= <-]. reflexivity.
Qed.

(** X8.  An iteration that returns renders at most once, and what it
    renders is the state the session holds when the iteration is over:
    exactly one render of that state when the session is paused or the
    keyboard helper returned an action, none when the helper raised
    [SystemExit] in an unpaused iteration. *)
Theorem iteration_shows_current_state
    (env : Env) (st st' : Session) (inp : TickInput) :
  val (loop_body env st inp) = inr st' ->
  rendered (log (loop_body env st inp))
  = if pause st' then [state st']
    else match human inp with
         | HumanAction _ => [state st']
         | HumanSystemExit => []
         end.
Proof.
  intros Hval. unfold loop_body in *.
  rewrite (bind_value (emit EventGet) _ tt) in * by reflexivity.
  cbn [val log emit] in *.
  destruct (bind_value_inv _ _ _ Hval) as (st1 & Hev & Hadv & Hlog).
  rewrite Hlog. change ([EventGet] ++ ?l) with ([EventGet] ++ l).
  destruct (handle_events_quiet env (events inp) st) as (_ & _ & Hr).
  rewrite !rendered_app, Hr, (advance_rendered env _ _ _ Hadv).
  destruct (advance_keeps_flags env _ _ _ Hadv) as (-> & _).
  reflexivity.
Qed.

(** *** Pausing *)

(** X9.  While the session is paused and no event arrives, the loop idles:
    over any number of iterations, whatever the keyboard helper would
    return, each iteration only fetches the events, renders the same
    state and ticks the clock, and the session comes back unchanged. *)
Theorem paused_idle_loop
    (env : Env) (st : Session) (image : Frame) (ticks : list TickInput) :
  running st = true ->
  pause st = true ->
  render env (state st) = inr image ->
  Forall (fun inp => events inp = []) ticks ->
  main_loop env ticks st
  = MkRes (concat (map (fun _ => idle_frame (state st) image) ticks))
          (inr st).
Proof.
  intros Hrun Hpause Hrender Hidle.
  induction Hidle as [|inp rest Hinp _ IH]; [reflexivity|].
  rewrite main_loop_cons, Hrun.
  assert (Hbody : loop_body env st inp
                  = MkRes (idle_frame (state st) image) (inr st)).
  { unfold loop_body. rewrite Hinp.
    rewrite (bind_value (emit EventGet) _ tt) by reflexivity.
    cbn [handle_events].
    rewrite (bind_value (mret st) _ st) by reflexivity.
    unfold advance, show. rewrite Hpause. unfold_res. simpl.
    rewrite Hrender. reflexivity. }
  rewrite (bind_value _ _ st) by (rewrite Hbody; reflexivity).
  rewrite Hbody, IH. reflexivity.
Qed.

(** *** How often the environment is stepped *)

Lemma log_bind {A B} (m : Res A) (f : A -> Res B) :
  log (m ≫= f)
  = log m ++ match val m with inr a => log (f a) | inl _ => [] end.
Proof.
  unfold_res. destruct (val m); cbn [log]; [|reflexivity].
  rewrite app_nil_r. reflexivity.
Qed.

Lemma advance_counts (env : Env) (st : Session) (h : HumanInput) :
  (step_calls (log (advance env st h)) <= polls (log (advance env st h)))%nat /\
  (polls (log (advance env st h)) <= 1)%nat.
Proof.
  unfold advance. destruct (pause st).
  - unfold show. unfold_res. simpl.
    destruct (render env (state st)) as [e|image]; simpl;
      split; apply Nat.leb_le; reflexivity.
  - destruct h as [action|].
    + unfold check_done, show. unfold_res. simpl.
      destruct (step env (state st) (translate action))
        as [e|[[[o s] r] d]]; simpl;
        [split; apply Nat.leb_le; reflexivity|].
      destruct d; simpl.
      * destruct (reset env (fold_in master_key (reset_counter st)))
          as [e|[o2 s2]]; simpl;
          [split; apply Nat.leb_le; reflexivity|].
        destruct (render env s2) as [e|image]; simpl;
          split; apply Nat.leb_le; reflexivity.
      * destruct (render env s) as [e|image]; simpl;
          split; apply Nat.leb_le; reflexivity.
    + unfold_res. simpl. split; apply Nat.leb_le; reflexivity.
Qed.

Lemma loop_body_counts (env : Env) (st : Session) (inp : TickInput) :
  (step_calls (log (loop_body env st inp))
   <= polls (log (loop_body env st inp)))%nat /\
  (polls (log (loop_body env st inp)) <= 1)%nat.
Proof.
  unfold loop_body. rewrite !log_bind. cbn [val log emit].
  destruct (handle_events_quiet env (events inp) st) as (Hs & Hp & _).
  rewrite !step_calls_app, !polls_app, Hs, Hp.
  change (step_calls [EventGet]) with 0%nat.
  change (polls [EventGet]) with 0%nat.
  destruct (val (handle_events env st (events inp))) as [e|st1].
  - cbn. split; lia.
  - destruct (advance_counts env st1 (human inp)) as (Ha & Hb).
    cbn [Nat.add]. split; assumption.
Qed.

Lemma main_loop_counts (env : Env) (inputs : list TickInput) (st : Session) :
  (step_calls (log (main_loop env inputs st))
   <= polls (log (main_loop env inputs st)))%nat /\
  (polls (log (main_loop env inputs st)) <= length inputs)%nat.
Proof.
  revert st. induction inputs as [|inp rest IH]; intros st.
  - cbn. split; lia.
  - rewrite main_loop_cons. destruct (running st); [|cbn; split; lia].
    rewrite log_bind, !step_calls_app, !polls_app. cbn [length].
    destruct (loop_body_counts env st inp) as (Ha & Hb).
    destruct (val (loop_body env st inp)) as [e|st'].
    + change (step_calls []) with 0%nat. change (polls []) with 0%nat.
      split; lia.
    + destruct (IH st') as (Hc & Hd). split; lia.
Qed.

(** X10.  In every run, finished or cut short by an exception, the
    environment is stepped at most once per poll of the keyboard helper,
    and the helper is polled at most once per iteration: there are never
    more step calls than polls, nor more polls than iterations. *)
Theorem at_most_one_step_per_iteration
    (env : Env) (inputs : list TickInput) :
  (step_calls (log (session env inputs))
   <= polls (log (session env inputs)))%nat /\
  (polls (log (session env inputs)) <= length inputs)%nat.
Proof.
  unfold session. rewrite log_bind.
  assert (Hstart : step_calls (log (start env)) = 0%nat /\
                   polls (log (start env)) = 0%nat).
  { unfold start. unfold_res. cbn [val log].
    destruct (reset env _) as [e|[o s]]; cbn [val log]; [split; reflexivity|].
    destruct (render env s) as [e|image]; split; reflexivity. }
  destruct Hstart as (Hs & Hp).
  rewrite !step_calls_app, !polls_app, Hs, Hp.
  destruct (val (start env)) as [e|st0]; [cbn; split; lia|].
  apply main_loop_counts.
Qed.

(** *** How often an iteration resets *)

Lemma advance_resets_at_most_once (env : Env) (st st' : Session)
    (h : HumanInput) :
  val (advance env st h) = inr st' ->
  (length (reset_keys (log (advance env st h))) <= 1)%nat /\
  reset_counter st'
  = reset_counter st
    + Z.of_nat (length (reset_keys (log (advance env st h)))).
Proof.
  unfold advance. destruct (pause st).
  - unfold show. unfold_res. simpl.
    destruct (render env (state st)) as [e|image]; simpl; [discriminate|].
    intros [= <-]. cbn. split; lia.
  - destruct h as [action|].
    + unfold check_done, show. unfold_res. simpl.
      destruct (step env (state st) (translate action))
        as [e|[[[o s] r] d]]; simpl; [discriminate|].
      destruct d; simpl.
      * destruct (reset env (fold_in master_key (reset_counter st)))
          as [e|[o2 s2]]; simpl; [discriminate|].
        destruct (render env s2) as [e|image]; simpl; [discriminate|].
        intros [= <-]. cbn. split; lia.
      * destruct (render env s) as [e|image]; simpl; [discriminate|].
        intros [= <-]. cbn. split; lia.
    + unfold_res. simpl. intros [= <-]. cbn. split; lia.
Qed.

Lemma handle_events_reset_calls (env : Env) (evs : list Event)
    (st st1 : Session) :
  val (handle_events env st evs) = inr st1 ->
  length (reset_keys (log (handle_events env st evs))) = reset_presses evs.
Proof.
  revert st. induction evs as [|event rest IH]; intros st Hval.
  - reflexivity.
  - cbn [handle_events] in *.
    destruct (bind_value_inv _ _ _ Hval) as (st0 & Hev & Hrest & Hlog).
    rewrite Hlog, reset_keys_app, length_app, (IH st0 Hrest),
      reset_presses_cons.
    f_equal. revert Hev.
    destruct event as [|[| | |code]|ty]; cbn [handle_event is_reset_key];
      try (intros _; reflexivity).
    unfold manual_reset. unfold_res. cbn [val log].
    destruct (reset env _) as [e|[o s]]; cbn [val log]; [discriminate|].
    intros _. reflexivity.
Qed.

(** X19.  An iteration that returns calls the environment's reset once
    for each R press among its events and at most once more (the reset
    after a step with done), and the counter grows by exactly the number
    of reset calls made. *)
Theorem iteration_reset_calls
    (env : Env) (st st' : Session) (inp : TickInput) :
  val (loop_body env st inp) = inr st' ->
  (reset_presses (events inp)
   <= length (reset_keys (log (loop_body env st inp)))
   <= reset_presses (events inp) + 1)%nat /\
  reset_counter st'
  = reset_counter st
    + Z.of_nat (length (reset_keys (log (loop_body env st inp)))).
Proof.
  intros Hval. unfold loop_body in *.
  rewrite (bind_value (emit EventGet) _ tt) in * by reflexivity.
  cbn [val log emit] in *.
  destruct (bind_value_inv _ _ _ Hval) as (st1 & Hev & Hadv & Hlog).
  rewrite Hlog.
  change ([EventGet] ++ ?l) with (EventGet :: l).
  change (reset_keys (EventGet :: ?l)) with (reset_keys l).
  rewrite reset_keys_app, length_app,
    (handle_events_reset_calls env _ _ _ Hev).
  destruct (advance_resets_at_most_once env _ _ _ Hadv) as (Hle & Hcount).
  destruct (events_set_flags env _ _ _ Hev) as (_ & _ & Hc1 & _).
  split; [lia|]. rewrite Hcount, Hc1. lia.
Qed.

End LoopProperties.


(** * Properties of run_pacman.py *)

(** The scripted rule on every integer: the action is one of the four
    directions, never NOOP, and ten steps later it is the next direction
    in the cycle 1, 2, 3, 4, 1. *)
Lemma scripted_action_cycle (index : Z) :
  1 <= RunPacman.scripted_action index <= 4 /\
  RunPacman.scripted_action (index + 10)
  = RunPacman.scripted_action index mod 4 + 1.
Proof.
  unfold RunPacman.scripted_action. split.
  - pose proof (Z.mod_pos_bound (index / 10) 4). lia.
  - replace (index + 10) with (index + 1 * 10) by lia.
    rewrite Z.div_add by lia. rewrite Zplus_mod_idemp_l. reflexivity.
Qed.

(** X11.  The scripted rule on every step index, negative ones included:
    the action is one of the four directions 1 to 4 (never NOOP), ten
    steps later it is the next direction of the cycle 1, 2, 3, 4, 1, and
    forty steps later it is the same again. *)
Theorem scripted_action_cycles_through_directions (index : Z) :
  1 <= RunPacman.scripted_action index <= 4 /\
  RunPacman.scripted_action (index + 10)
  = RunPacman.scripted_action index mod 4 + 1 /\
  RunPacman.scripted_action (index + 40) = RunPacman.scripted_action index.
Proof.
  destruct (scripted_action_cycle index) as (Hrange & Hnext).
  split; [exact Hrange|]. split; [exact Hnext|].
  unfold RunPacman.scripted_action.
  replace (index + 40) with (index + 4 * 10) by lia.
  rewrite Z.div_add by lia.
  replace (index / 10 + 4) with (index / 10 + 1 * 4) by lia.
  rewrite Z.mod_add by lia. reflexivity.
Qed.

Ltac unfold_out :=
  unfold mbind, RunPacmanScript.out_mbind, mret, RunPacmanScript.out_mret,
    RunPacmanScript.out_bind, RunPacmanScript.out_ret, RunPacmanScript.say,
    RunPacmanScript.does, RunPacmanScript.calls in *.

Section ScriptProperties.
Context `{Inspectors}.
Import RunPacmanScript.

(** *** Laws of [Out] *)

Lemma out_eta {A} (m : Out A) : MkOut (trace m) (result m) = m.
Proof. destruct m. reflexivity. Qed.

Lemma out_bind_value {A B} (m : Out A) (f : A -> Out B) (a : A) :
  result m = inr a ->
  m ≫= f = MkOut (trace m ++ trace (f a)) (result (f a)).
Proof. intros Hm. unfold_out. rewrite Hm. reflexivity. Qed.

Lemma out_bind_raise {A B} (m : Out A) (f : A -> Out B) (e : Exn) :
  result m = inl e ->
  m ≫= f = MkOut (trace m) (inl e).
Proof. intros Hm. unfold_out. rewrite Hm. reflexivity. Qed.

Lemma out_bind_ret_l {A B} (a : A) (f : A -> Out B) : mret a ≫= f = f a.
Proof. unfold_out. simpl. apply out_eta. Qed.

Lemma out_bind_assoc {A B C} (m : Out A) (f : A -> Out B) (g : B -> Out C) :
  (m ≫= f) ≫= g = m ≫= (fun a => f a ≫= g).
Proof.
  unfold_out. destruct (result m) as [e|a]; simpl; [reflexivity|].
  destruct (result (f a)) as [e|b]; simpl; [reflexivity|].
  rewrite app_assoc. reflexivity.
Qed.

Lemma out_bind_ext {A B} (m : Out A) (f g : A -> Out B) :
  (forall a, f a = g a) -> m ≫= f = m ≫= g.
Proof.
  intros Hfg. unfold_out. destruct (result m) as [e|a]; [reflexivity|].
  rewrite Hfg. reflexivity.
Qed.

Lemma trace_bind {A B} (m : Out A) (f : A -> Out B) :
  trace (m ≫= f)
  = trace m ++ match result m with inr a => trace (f a) | inl _ => [] end.
Proof.
  unfold_out. destruct (result m); cbn [trace]; [|reflexivity].
  rewrite app_nil_r. reflexivity.
Qed.

(** *** The loop and its [break] *)

Lemma loop_cons (env : Env) (index : Z) (rest : list Z) (v : Vars) :
  loop env (index :: rest) v
  = body env v index ≫= fun r =>
      if (snd r : bool) then mret (fst r, true) else loop env rest (fst r).
Proof.
  cbn [loop]. apply out_bind_ext. intros [v' broke]. reflexivity.
Qed.

Lemma loop_app (env : Env) (pre rest : list Z) (v : Vars) :
  loop env (pre ++ rest) v
  = loop env pre v ≫= fun r =>
      if (snd r : bool) then mret (fst r, true) else loop env rest (fst r).
Proof.
  revert v. induction pre as [|index pre IH]; intros v.
  - cbn [app loop]. rewrite out_bind_ret_l. reflexivity.
  - rewrite <- app_comm_cons, !loop_cons, out_bind_assoc.
    apply out_bind_ext. intros [v' broke]. cbn [fst snd].
    destruct broke.
    + rewrite out_bind_ret_l. reflexivity.
    + apply IH.
Qed.


(** *** The actions passed to step *)

Lemma actions_app (a b : list Call) :
  actions (a ++ b) = actions a ++ actions b.
Proof. apply omap_app. Qed.

Lemma quiet_bind {A B} (m : Out A) (f : A -> Out B) :
  actions (trace m) = [] -> (forall a, actions (trace (f a)) = []) ->
  actions (trace (m ≫= f)) = [].
Proof.
  intros Hm Hf. rewrite trace_bind, actions_app, Hm.
  destruct (result m); [reflexivity|apply Hf].
Qed.

Lemma quiet_attr {A} (name : string) (o : option A) :
  actions (trace (attr name o)) = [].
Proof. destruct o; reflexivity. Qed.

Ltac quiet :=
  repeat first
    [ apply quiet_attr
    | reflexivity
    | apply quiet_bind; [|intros ?]
    | match goal with |- context [match ?x with _ => _ end] =>
        destruct x end ].

Lemma body_actions (env : Env) (v : Vars) (index : Z) :
  actions (trace (body env v index)) = [RunPacman.scripted_action index].
Proof.
  unfold body. rewrite trace_bind, actions_app. cbn [calls trace result].
  destruct (step env (state v) (RunPacman.scripted_action index))
    as [e|[[[o s] r] d]]; [reflexivity|].
  match goal with
  | |- _ ++ actions (trace ?m) = _ =>
      assert (Hquiet : actions (trace m) = []) by quiet;
      rewrite Hquiet
  end.
  reflexivity.
Qed.

Lemma loop_actions (env : Env) (steps : list Z) (v : Vars) :
  exists n : nat,
    (n <= length steps)%nat /\
    actions (trace (loop env steps v))
    = map RunPacman.scripted_action (take n steps).
Proof.
  revert v. induction steps as [|index rest IH]; intros v.
  - exists 0%nat. split; [lia|reflexivity].
  - rewrite loop_cons, trace_bind, actions_app, body_actions.
    destruct (result (body env v index)) as [e|[v' broke]]; cbn [fst snd].
    + exists 1%nat. cbn. split; [lia|reflexivity].
    + destruct broke.
      * exists 1%nat. cbn. split; [lia|reflexivity].
      * destruct (IH v') as (n & Hn & Hact). exists (S n).
        rewrite Hact. cbn. split; [lia|reflexivity].
Qed.

Lemma prefix_after_quiet {A B} (m : Out A) (f : A -> Out B) :
  actions (trace m) = [] ->
  (forall a, exists n : nat,
      (n <= 50)%nat /\
      actions (trace (f a)) = take n RunPacman.scripted_actions) ->
  exists n : nat,
    (n <= 50)%nat /\
    actions (trace (m ≫= f)) = take n RunPacman.scripted_actions.
Proof.
  intros Hm Hf. rewrite trace_bind, actions_app, Hm.
  destruct (result m) as [e|a]; [|apply Hf].
  exists 0%nat. split; [lia|reflexivity].
Qed.

Lemma prefix_before_quiet {A B} (m : Out A) (f : A -> Out B) :
  (exists n : nat,
      (n <= 50)%nat /\
      actions (trace m) = take n RunPacman.scripted_actions) ->
  (forall a, actions (trace (f a)) = []) ->
  exists n : nat,
    (n <= 50)%nat /\
    actions (trace (m ≫= f)) = take n RunPacman.scripted_actions.
Proof.
  intros (n & Hn & Hm) Hf. exists n. split; [exact Hn|].
  rewrite trace_bind, actions_app, Hm.
  destruct (result m) as [e|a]; [|rewrite Hf]; apply app_nil_r.
Qed.

Lemma main_actions (games : list string) (make : Exn + Env) :
  exists n : nat,
    (n <= 50)%nat /\
    actions (trace (main games make)) = take n RunPacman.scripted_actions.
Proof.
  unfold main.
  do 3 (apply prefix_after_quiet; [reflexivity|intros _]).
  destruct (decide _); [|exists 0%nat; split; [lia|reflexivity]].
  apply prefix_after_quiet; [reflexivity|intros _].
  apply prefix_after_quiet; [reflexivity|intros env].
  do 4 (apply prefix_after_quiet; [reflexivity|intros _]).
  apply prefix_after_quiet; [reflexivity|intros [obs0 state0]].
  apply prefix_after_quiet; [reflexivity|intros _].
  apply prefix_after_quiet; [apply quiet_attr|intros score].
  apply prefix_after_quiet; [reflexivity|intros _].
  apply prefix_after_quiet; [apply quiet_attr|intros lives].
  apply prefix_after_quiet; [reflexivity|intros _].
  apply prefix_after_quiet; [apply quiet_attr|intros [x y]].
  apply prefix_after_quiet; [reflexivity|intros _].
  apply prefix_after_quiet; [apply quiet_attr|intros pellets].
  apply prefix_after_quiet; [reflexivity|intros _].
  apply prefix_after_quiet; [apply quiet_attr|intros power].
  apply prefix_after_quiet; [reflexivity|intros _].
  apply prefix_after_quiet; [reflexivity|intros _].
  apply prefix_before_quiet.
  - destruct (loop_actions env RunPacman.steps
                {| key := PRNGKey 42; obs := obs0; state := state0;
                   total_reward := 0 |}) as (n & Hn & Hact).
    exists n. split; [exact Hn|].
    rewrite Hact. unfold RunPacman.scripted_actions.
    symmetry. apply firstn_map.
  - intros [v broke]. unfold test_rendering. quiet.
Qed.

(** X13.  However the run goes, the script steps the environment at most
    fifty times, and the k-th step call, counted from 0, is given the
    scripted action of index k: the actions passed to step are an initial
    part of the fifty scripted actions. *)
Theorem script_steps_follow_the_rule
    (imports : option Exn) (games : list string) (make : Exn + Env) :
  exists n : nat,
    (n <= 50)%nat /\
    RunPacmanScript.actions
      (RunPacmanScript.output (RunPacmanScript.script imports games make))
    = take n RunPacman.scripted_actions.
Proof.
  assert (Hhandler : forall e, actions (handler e) = []).
  { intros e. unfold handler. destruct (is_import_error e); reflexivity. }
  unfold script. destruct imports as [e|].
  - exists 0%nat. cbn [output]. rewrite Hhandler. split; [lia|reflexivity].
  - destruct (main_actions games make) as (n & Hn & Hact).
    exists n. split; [exact Hn|].
    destruct (result (main games make)) as [e|u]; cbn [output].
    + rewrite actions_app, Hhandler, app_nil_r. exact Hact.
    + exact Hact.
Qed.

(** *** Running to the end *)

Lemma eval_bind {A B} (m : Out A) (f : A -> Out B)
    (tr : list Call) (a : A) (tr' : list Call) (r : Exn + B) :
  m = MkOut tr (inr a) -> f a = MkOut tr' r ->
  m ≫= f = MkOut (tr ++ tr') r.
Proof.
  intros -> Hf. rewrite (out_bind_value _ _ a) by reflexivity.
  rewrite Hf. reflexivity.
Qed.

Lemma eval_raise {A B} (m : Out A) (f : A -> Out B)
    (tr : list Call) (e : Exn) :
  m = MkOut tr (inl e) -> m ≫= f = MkOut tr (inl e).
Proof. intros ->. apply out_bind_raise. reflexivity. Qed.

Lemma progress_app (a b : list Call) :
  progress (a ++ b) = progress a ++ progress b.
Proof. apply omap_app. Qed.

Lemma body_live (env : Env) (v : Vars) (index : Z)
    (o : Obs) (s : EnvState) (r : float) :
  step env (state v) (RunPacman.scripted_action index) = inr (o, s, r, false) ->
  (index mod 10 = 0 -> printable o) ->
  exists tr,
    body env v index
    = MkOut tr (inr ({| key := fst (random_split (key v)); obs := o;
                        state := s;
                        total_reward := (total_reward v + r)%float |},
                     false)) /\
    actions tr = [RunPacman.scripted_action index] /\
    progress tr = if index mod 10 =? 0 then [index] else [].
Proof.
  intros Hstep Hprint.
  unfold body. unfold_out. cbn [trace result]. rewrite Hstep.
  cbn [trace result]. rewrite orb_false_r.
  destruct (Z.eqb_spec (index mod 10) 0) as [Hten|_].
  - destruct (Hprint Hten) as ([sc Hsc] & [lv Hlv] & [pl Hpl]).
    rewrite Hsc, Hlv, Hpl. cbn. eexists. repeat split.
  - cbn. eexists. repeat split.
Qed.

Lemma loop_runs (env : Env) (steps : list Z)
    (outs : list (Obs * EnvState * float)) (v : Vars) :
  runs_on env (state v) steps outs ->
  exists tr v',
    loop env steps v = MkOut tr (inr (v', false)) /\
    actions tr = map RunPacman.scripted_action steps /\
    progress tr = filter (fun i => i mod 10 = 0) steps /\
    obs v' = from_option (fun out => fst (fst out)) (obs v) (last outs) /\
    total_reward v' = add_rewards (total_reward v) outs.
Proof.
  revert outs v. induction steps as [|index rest IH]; intros outs v Hruns.
  - destruct outs as [|out outs]; [|destruct Hruns].
    exists [], v. repeat split.
  - destruct outs as [|[[o s] r] outs]; [destruct Hruns|].
    destruct Hruns as (Hstep & Hprint & Hrest).
    destruct (body_live env v index o s r Hstep Hprint)
      as (tr1 & Hbody & Ha1 & Hp1).
    destruct (IH outs {| key := fst (random_split (key v)); obs := o;
                         state := s;
                         total_reward := (total_reward v + r)%float |} Hrest)
      as (tr2 & v' & Hloop & Ha2 & Hp2 & Hobs & Htotal).
    exists (tr1 ++ tr2), v'.
    split; [|split; [|split; [|split]]].
    + rewrite loop_cons. eapply eval_bind; [exact Hbody|]. exact Hloop.
    + rewrite actions_app, Ha1, Ha2. reflexivity.
    + rewrite progress_app, Hp1, Hp2, filter_cons.
      destruct (Z.eqb_spec (index mod 10) 0) as [Heq|Hne];
        case_decide; try contradiction; reflexivity.
    + rewrite Hobs, last_cons. cbn [obs].
      destruct (last outs); reflexivity.
    + rewrite Htotal. reflexivity.
Qed.

Lemma test_rendering_eval (env : Env) (v : Vars) :
  exists tr,
    test_rendering env v = MkOut tr (inr tt) /\
    actions tr = [] /\ progress tr = [] /\
    (forall e, render env (state v) = inl e ->
       tr = [Say TestingRendering; DoRender (state v);
             Say (RenderingError e); Say (Traceback e)]).
Proof.
  unfold test_rendering. unfold_out. cbn [trace result].
  destruct (render env (state v)) as [e|image]; cbn; eexists;
    (split; [reflexivity|split; [reflexivity|split; [reflexivity|]]]).
  - intros e' [= <-]. reflexivity.
  - intros e' He'. discriminate He'.
Qed.

Ltac eval_next :=
  eapply eval_bind; [reflexivity|cbv beta iota].

Ltac eval_with Heq :=
  eapply eval_bind; [rewrite Heq; reflexivity|cbv beta iota].

(** X14.  A full run: when the game is listed, the reset returns an
    observation with every attribute the script prints, and the fifty
    steps the script takes return one after the other without done (the
    observations of the steps 0, 10, 20, 30, 40 and of the last step
    carrying score, lives and pellets), the script makes exactly the fifty
    scripted steps, prints a progress line at the steps 0, 10, 20, 30 and
    40 and at no other, reports as total reward the fifty rewards added
    one by one to 0.0, ends with the completion banner and exits with
    status 0, whether or not the final render raises.  Nothing is asked
    of the environment outside these fifty steps. *)
Theorem full_run_completes
    (games : list string) (env : Env) (o0 : Obs) (s0 : EnvState)
    (outs : list (Obs * EnvState * float)) :
  "pacman"%string ∈ games ->
  reset env (PRNGKey 42) = inr (o0, s0) ->
  complete o0 ->
  RunPacmanScript.runs_on env s0 RunPacman.steps outs ->
  (forall o s r, last outs = Some (o, s, r) -> RunPacmanScript.printable o) ->
  RunPacmanScript.result (RunPacmanScript.main games (inr env)) = inr tt /\
  RunPacmanScript.actions (RunPacmanScript.trace
                             (RunPacmanScript.main games (inr env)))
  = RunPacman.scripted_actions /\
  RunPacmanScript.progress (RunPacmanScript.trace
                              (RunPacmanScript.main games (inr env)))
  = [0; 10; 20; 30; 40] /\
  last (RunPacmanScript.trace (RunPacmanScript.main games (inr env)))
  = Some (Say Completed) /\
  RunPacmanScript.exit_status (RunPacmanScript.script None games (inr env))
  = 0 /\
  Say (TotalReward (RunPacmanScript.add_rewards 0%float outs))
  ∈ RunPacmanScript.trace (RunPacmanScript.main games (inr env)).
Proof.
  intros Hin Hreset Ho0 Hruns Hlast.
  pose proof Ho0 as ([sc Hsc] & [lv Hlv] & [[x y] Hxy] & [pl Hpl] & [pw Hpw]).
  destruct (loop_runs env RunPacman.steps outs
              {| key := PRNGKey 42; obs := o0; state := s0;
                 total_reward := 0 |} Hruns)
    as (trl & v' & Hloop & Hacts & Hprog & Hobs & Htotal).
  cbn [obs total_reward] in Hobs, Htotal.
  assert (Hv' : printable (obs v')).
  { destruct outs as [|out outs]; [destruct Hruns|].
    destruct (last (out :: outs)) as [[[o s] r]|] eqn:Hl.
    - rewrite Hobs. cbn. apply (Hlast o s r). reflexivity.
    - rewrite last_cons in Hl. destruct (last outs); discriminate Hl. }
  destruct Hv' as ([sc' Hsc'] & [lv' Hlv'] & [pl' Hpl']).
  destruct (test_rendering_eval env v') as (trr & Hrender & Hqa & Hqp & _).
  assert (Hmain : exists tr,
             main games (inr env) = MkOut tr (inr tt) /\
             actions tr = RunPacman.scripted_actions /\
             progress tr = [0; 10; 20; 30; 40] /\
             last tr = Some (Say Completed) /\
             Say (TotalReward (total_reward v')) ∈ tr).
  { eexists. split.
    - unfold main. do 3 eval_next.
      destruct (decide _) as [_|Hout]; [|destruct (Hout Hin)].
      do 6 eval_next. eval_with Hreset. eval_next.
      eval_with Hsc. eval_next. eval_with Hlv. eval_next.
      eval_with Hxy. eval_next. eval_with Hpl. eval_next.
      eval_with Hpw. do 2 eval_next.
      eapply eval_bind; [exact Hloop|cbv beta iota].
      eval_next. eval_with Hsc'. eval_next. eval_with Hlv'. eval_next.
      eval_with Hpl'. eval_next.
      eapply eval_bind; [exact Hrender|cbv beta iota].
      reflexivity.
    - split; [|split; [|split]].
      + rewrite !actions_app, Hacts, Hqa. reflexivity.
      + rewrite !progress_app, Hprog, Hqp. reflexivity.
      + rewrite !last_app. reflexivity.
      + repeat first
          [ apply elem_of_app; left; apply list_elem_of_here
          | apply elem_of_app; right ]. }
  destruct Hmain as (tr & Hmain & Ha & Hp & Hl & Hsum).
  unfold script. rewrite Hmain. cbn [trace result exit_status].
  rewrite <- Htotal.
  split; [reflexivity|]. split; [exact Ha|]. split; [exact Hp|].
  split; [exact Hl|]. split; [reflexivity|exact Hsum].
Qed.

(** X15.  The rendering test of the script has its own handler: whatever
    render does, the test returns, and when render raises, the error line
    and the traceback are printed and nothing else happens. *)
Theorem rendering_test_tolerates_failure (env : Env) (v : Vars) :
  RunPacmanScript.result (RunPacmanScript.test_rendering env v) = inr tt /\
  (forall e, render env (RunPacmanScript.state v) = inl e ->
     RunPacmanScript.trace (RunPacmanScript.test_rendering env v)
     = [Say TestingRendering; DoRender (RunPacmanScript.state v);
        Say (RenderingError e); Say (Traceback e)]).
Proof.
  destruct (test_rendering_eval env v) as (tr & -> & _ & _ & Hfail).
  split; [reflexivity|exact Hfail].
Qed.

(** *** The end of an episode *)

(** X16.  A step that returns done ends the loop: when the steps before it
    ran without a break, the loop returns after this step with the
    variables it produced (the reward added to the total), the Game Over
    line with the score is the last thing printed, and no later step
    index is used. *)
Theorem done_step_ends_the_loop
    (env : Env) (pre : list Z) (index : Z) (rest : list Z)
    (v v1 : Vars) (o : Obs) (s : EnvState) (r : float) :
  RunPacmanScript.result (RunPacmanScript.loop env pre v) = inr (v1, false) ->
  step env (RunPacmanScript.state v1) (RunPacman.scripted_action index)
  = inr (o, s, r, true) ->
  complete o ->
  exists score,
    obs_score o = Some score /\
    RunPacmanScript.result (RunPacmanScript.loop env (pre ++ index :: rest) v)
    = inr ({| key := fst (random_split (RunPacmanScript.key v1));
              obs := o; state := s;
              total_reward := (RunPacmanScript.total_reward v1 + r)%float |},
           true) /\
    RunPacmanScript.actions
      (RunPacmanScript.trace (RunPacmanScript.loop env (pre ++ index :: rest) v))
    = RunPacmanScript.actions
        (RunPacmanScript.trace (RunPacmanScript.loop env pre v))
      ++ [RunPacman.scripted_action index] /\
    last (RunPacmanScript.trace
            (RunPacmanScript.loop env (pre ++ index :: rest) v))
    = Some (Say (GameOver score)).
Proof.
  intros Hpre Hstep ([sc Hsc] & [lv Hlv] & _ & [pl Hpl] & _).
  exists sc. split; [exact Hsc|].
  assert (Hbody : body env v1 index
                  = MkOut [DoStep (state v1) (RunPacman.scripted_action index);
                           Say (StepLine index (RunPacman.scripted_action index)
                                  r sc lv pl true);
                           Say (GameOver sc)]
                      (inr ({| key := fst (random_split (key v1)); obs := o;
                               state := s;
                               total_reward := (total_reward v1 + r)%float |},
                            true))).
  { unfold body. unfold_out. cbn [trace result]. rewrite Hstep.
    cbn [trace result]. rewrite orb_true_r, Hsc, Hlv, Hpl. reflexivity. }
  rewrite loop_app, (out_bind_value _ _ _ Hpre). cbn [fst snd trace result].
  assert (Hres : result (body env v1 index)
                 = inr ({| key := fst (random_split (key v1)); obs := o;
                           state := s;
                           total_reward := (total_reward v1 + r)%float |},
                        true)) by (rewrite Hbody; reflexivity).
  rewrite loop_cons, (out_bind_value _ _ _ Hres).
  rewrite Hbody. cbn [fst snd trace result mret out_mret out_ret].
  split; [reflexivity|]. split.
  - rewrite actions_app. reflexivity.
  - rewrite !last_app. reflexivity.
Qed.

(** *** Failures before the first step *)

(** X17.  How the script ends when the game cannot be set up.  When
    "pacman" is not among the listed games, the script reports it and
    ends with status 0 without trying to build the environment; when the
    game is listed and building the environment raises, the module-level
    handler reports the exception and the script ends with status 1. *)
Theorem script_setup_exit_statuses
    (games : list string) (make : Exn + Env) :
  ("pacman"%string ∉ games ->
   RunPacmanScript.script None games make
   = {| output := [Say Banner; ListGames; Say (AvailableGames games);
                   Say NotFound];
        exit_status := 0 |}) /\
  (forall e, "pacman"%string ∈ games -> make = inl e ->
   RunPacmanScript.script None games make
   = {| output := [Say Banner; ListGames; Say (AvailableGames games);
                   Say Creating; Make] ++ RunPacmanScript.handler e;
        exit_status := 1 |}).
Proof.
  split.
  - intros Hout.
    assert (Hmain : main games make
                    = MkOut ([Say Banner] ++ [ListGames]
                               ++ [Say (AvailableGames games)] ++ [Say NotFound])
                            (inr tt)).
    { unfold main. do 3 eval_next.
      destruct (decide _) as [Hin|_]; [destruct (Hout Hin)|]. reflexivity. }
    unfold script. rewrite Hmain. reflexivity.
  - intros e Hin ->.
    assert (Hmain : main games (inl e)
                    = MkOut ([Say Banner] ++ [ListGames]
                               ++ [Say (AvailableGames games)]
                               ++ [Say Creating] ++ [Make])
                            (inl e)).
    { unfold main. do 3 eval_next.
      destruct (decide _) as [_|Hout]; [|destruct (Hout Hin)].
      eval_next. apply eval_raise. reflexivity. }
    unfold script. rewrite Hmain. reflexivity.
Qed.

(** X18.  The script reads the observation's attributes without checking
    for them: when the observation returned by the reset lacks one of
    score, lives, player, pellets or power_pellets, the script ends with
    an [AttributeError] and status 1 before any step is made. *)
Theorem incomplete_observation_is_fatal
    (games : list string) (env : Env) (o0 : Obs) (s0 : EnvState) :
  "pacman"%string ∈ games ->
  reset env (PRNGKey 42) = inr (o0, s0) ->
  ~ complete o0 ->
  RunPacmanScript.exit_status (RunPacmanScript.script None games (inr env)) = 1 /\
  RunPacmanScript.actions
    (RunPacmanScript.output (RunPacmanScript.script None games (inr env))) = [] /\
  exists name,
    RunPacmanScript.result (RunPacmanScript.main games (inr env))
    = inl (AttributeError name).
Proof.
  intros Hin Hreset Hinc.
  assert (Hmain : exists tr name,
             main games (inr env) = MkOut tr (inl (AttributeError name)) /\
             actions tr = []).
  { destruct (obs_score o0) as [sc|] eqn:Hsc;
      [destruct (obs_lives o0) as [lv|] eqn:Hlv;
       [destruct (obs_player o0) as [[x y]|] eqn:Hxy;
        [destruct (obs_pellets o0) as [pl|] eqn:Hpl;
         [destruct (obs_power_pellets o0) as [pw|] eqn:Hpw|]|]|]|].
    1: { exfalso. apply Hinc. unfold complete.
         rewrite Hsc, Hlv, Hxy, Hpl, Hpw. repeat split; eexists; reflexivity. }
    all: eexists _, _; split;
      [ unfold main; do 3 eval_next;
        destruct (decide _) as [_|Hout]; [|destruct (Hout Hin)];
        do 6 eval_next; eval_with Hreset; eval_next;
        repeat first [ eval_with Hsc; eval_next
                     | eval_with Hlv; eval_next
                     | eval_with Hxy; eval_next
                     | eval_with Hpl; eval_next ];
        apply eval_raise;
        first [rewrite Hsc|rewrite Hlv|rewrite Hxy|rewrite Hpl|rewrite Hpw];
        reflexivity
      | reflexivity ]. }
  destruct Hmain as (tr & name & Hmain & Hquiet).
  assert (Hhandler : forall e, actions (handler e) = []).
  { intros e. unfold handler. destruct (is_import_error e); reflexivity. }
  unfold script. rewrite Hmain. cbn [result trace exit_status output].
  split; [reflexivity|]. split; [|exists name; reflexivity].
  rewrite actions_app, Hquiet, Hhandler. reflexivity.
Qed.

End ScriptProperties.


(** * More runs of the toy games *)

Section MoreToyRuns.
Local Existing Instance Toy.world.
Local Existing Instance ToyScript.inspectors.

(** Two P presses around a QUIT and an R press, in a paused session. *)
Lemma toy_events_set_flags :
  exists st1,
    val (handle_events Toy.countdown Toy.paused
           [KEYDOWN K_p; QUIT; KEYDOWN K_r; KEYDOWN K_p]) = inr st1 /\
    (pause st1
     = xorb (pause Toy.paused)
            (Nat.odd (toggles [KEYDOWN K_p; QUIT; KEYDOWN K_r; KEYDOWN K_p])) /\
     running st1
     = running Toy.paused
       && negb (existsb is_quit [KEYDOWN K_p; QUIT; KEYDOWN K_r; KEYDOWN K_p]) /\
     reset_counter st1
     = reset_counter Toy.paused
       + Z.of_nat (reset_presses [KEYDOWN K_p; QUIT; KEYDOWN K_r; KEYDOWN K_p]) /\
     (reset_presses [KEYDOWN K_p; QUIT; KEYDOWN K_r; KEYDOWN K_p] = 0%nat ->
      state st1 = state Toy.paused /\ obs st1 = obs Toy.paused /\
      total_return st1 = total_return Toy.paused)).
Proof.
  eexists. split; [reflexivity|].
  apply (events_set_flags Toy.countdown
           [KEYDOWN K_p; QUIT; KEYDOWN K_r; KEYDOWN K_p] Toy.paused).
  reflexivity.
Defined.

(** The first move of an episode of the countdown game. *)
Lemma toy_live_step :
  advance Toy.countdown Toy.started (HumanAction 3)
  = MkRes [GetHumanAction;
           CallStep (state Toy.started) (translate 3);
           SetCaption (CaptionStatus (default 0 (obs_score (10, 3)))
                         (default 0 (obs_lives (10, 3)))
                         (total_return Toy.started + 5)%float);
           CallRender 1;
           UpdatePygame 1 UPSCALE_FACTOR 160 210;
           ClockTick frame_rate]
          (inr {| running := running Toy.started; pause := false;
                  reset_counter := reset_counter Toy.started;
                  total_return := (total_return Toy.started + 5)%float;
                  obs := (10, 3); state := 1 |}).
Proof.
  apply (live_step_updates_session Toy.countdown Toy.started 3 (10, 3) 1
           5%float 1); reflexivity.
Defined.

(** The session is resumed by a P press and the helper then raises. *)
Lemma toy_keyboard_exit :
  main_loop Toy.countdown
    (ToyScript.leave [KEYDOWN K_p] :: [Toy.tick [] 3]) Toy.paused
  = MkRes (EventGet
             :: log (handle_events Toy.countdown Toy.paused
                       (events (ToyScript.leave [KEYDOWN K_p])))
             ++ [GetHumanAction])
          (inr (set_running false Toy.last_move)).
Proof.
  apply (keyboard_exit_stops_loop Toy.countdown Toy.paused Toy.last_move
           (ToyScript.leave [KEYDOWN K_p]) [Toy.tick [] 3]); reflexivity.
Defined.

Lemma toy_quit_event :
  main_loop Toy.countdown (Toy.tick [QUIT] 3 :: [Toy.tick [] 3]) Toy.started
  = loop_body Toy.countdown Toy.started (Toy.tick [QUIT] 3) /\
  (forall st',
      val (loop_body Toy.countdown Toy.started (Toy.tick [QUIT] 3)) = inr st' ->
      running st' = false) /\
  (forall st1 action,
      val (handle_events Toy.countdown Toy.started
             (events (Toy.tick [QUIT] 3))) = inr st1 ->
      pause st1 = false ->
      human (Toy.tick [QUIT] 3) = HumanAction action ->
      step_calls (log (loop_body Toy.countdown Toy.started
                         (Toy.tick [QUIT] 3))) = 1%nat).
Proof.
  apply (quit_event_finishes_iteration Toy.countdown Toy.started
           (Toy.tick [QUIT] 3) [Toy.tick [] 3]); reflexivity.
Defined.


Lemma toy_iteration_shows_current_state :
  exists st',
    val (loop_body Toy.countdown Toy.last_move (Toy.tick [] 3)) = inr st' /\
    rendered (log (loop_body Toy.countdown Toy.last_move (Toy.tick [] 3)))
    = if pause st' then [state st']
      else match human (Toy.tick [] 3) with
           | HumanAction _ => [state st']
           | HumanSystemExit => []
           end.
Proof.
  eexists. split; [reflexivity|].
  apply (iteration_shows_current_state Toy.countdown Toy.last_move).
  reflexivity.
Defined.

(** An R press followed by a move that does not end the episode. *)
Lemma toy_iteration_reset_calls :
  exists st',
    val (loop_body Toy.countdown Toy.last_move (Toy.tick [KEYDOWN K_r] 3))
    = inr st' /\
    ((reset_presses (events (Toy.tick [KEYDOWN K_r] 3))
      <= length (reset_keys (log (loop_body Toy.countdown Toy.last_move
                                    (Toy.tick [KEYDOWN K_r] 3))))
      <= reset_presses (events (Toy.tick [KEYDOWN K_r] 3)) + 1)%nat /\
     reset_counter st'
     = reset_counter Toy.last_move
       + Z.of_nat (length (reset_keys (log (loop_body Toy.countdown
                                              Toy.last_move
                                              (Toy.tick [KEYDOWN K_r] 3)))))).
Proof.
  eexists. split; [reflexivity|].
  apply (iteration_reset_calls Toy.countdown Toy.last_move).
  reflexivity.
Defined.

Lemma toy_paused_idle_loop :
  main_loop Toy.countdown [Toy.tick [] 3; ToyScript.leave []] Toy.paused
  = MkRes (concat (map (fun _ => idle_frame (state Toy.paused) 1)
                     [Toy.tick [] 3; ToyScript.leave []]))
          (inr Toy.paused).
Proof.
  apply (paused_idle_loop Toy.countdown Toy.paused 1
           [Toy.tick [] 3; ToyScript.leave []]);
    try reflexivity.
  repeat constructor.
Defined.

Lemma pacman_listed : "pacman"%string ∈ ["pong"%string; "pacman"%string].
Proof. apply list_elem_of_further, list_elem_of_here. Defined.

Lemma toy_full_run :
  RunPacmanScript.result
    (RunPacmanScript.main ["pong"%string; "pacman"%string]
       (inr ToyScript.century)) = inr tt /\
  RunPacmanScript.actions
    (RunPacmanScript.trace
       (RunPacmanScript.main ["pong"%string; "pacman"%string]
          (inr ToyScript.century)))
  = RunPacman.scripted_actions /\
  RunPacmanScript.progress
    (RunPacmanScript.trace
       (RunPacmanScript.main ["pong"%string; "pacman"%string]
          (inr ToyScript.century)))
  = [0; 10; 20; 30; 40] /\
  last (RunPacmanScript.trace
          (RunPacmanScript.main ["pong"%string; "pacman"%string]
             (inr ToyScript.century)))
  = Some (RunPacmanScript.Say RunPacmanScript.Completed) /\
  RunPacmanScript.exit_status
    (RunPacmanScript.script None ["pong"%string; "pacman"%string]
       (inr ToyScript.century))
  = 0 /\
  RunPacmanScript.Say
    (RunPacmanScript.TotalReward
       (RunPacmanScript.add_rewards 0%float ToyScript.century_outs))
  ∈ RunPacmanScript.trace
      (RunPacmanScript.main ["pong"%string; "pacman"%string]
         (inr ToyScript.century)).
Proof.
  apply (full_run_completes ["pong"%string; "pacman"%string]
           ToyScript.century (0, 3) 0 ToyScript.century_outs).
  - exact pacman_listed.
  - reflexivity.
  - repeat split; eexists; reflexivity.
  - cbn.
    repeat (split; [reflexivity
                   |split; [intros _; repeat split; eexists; reflexivity|]]).
    exact I.
  - intros o s r [= <- <- <-]. repeat split; eexists; reflexivity.
Defined.

(** The countdown game under the script: the second step ends the
    episode. *)
Lemma toy_done_step_ends_the_loop :
  exists score,
    obs_score (20, 3) = Some score /\
    RunPacmanScript.result
      (RunPacmanScript.loop Toy.countdown ([0] ++ 1 :: [2; 3]) ToyScript.fresh)
    = inr ({| RunPacmanScript.key :=
                fst (random_split (RunPacmanScript.key ToyScript.after_one));
              RunPacmanScript.obs := (20, 3);
              RunPacmanScript.state := 0;
              RunPacmanScript.total_reward :=
                (RunPacmanScript.total_reward ToyScript.after_one + 5)%float |},
           true) /\
    RunPacmanScript.actions
      (RunPacmanScript.trace
         (RunPacmanScript.loop Toy.countdown ([0] ++ 1 :: [2; 3]) ToyScript.fresh))
    = RunPacmanScript.actions
        (RunPacmanScript.trace
           (RunPacmanScript.loop Toy.countdown [0] ToyScript.fresh))
      ++ [RunPacman.scripted_action 1] /\
    last (RunPacmanScript.trace
            (RunPacmanScript.loop Toy.countdown ([0] ++ 1 :: [2; 3])
               ToyScript.fresh))
    = Some (RunPacmanScript.Say (RunPacmanScript.GameOver score)).
Proof.
  apply (done_step_ends_the_loop Toy.countdown [0] 1 [2; 3]
           ToyScript.fresh ToyScript.after_one (20, 3) 0 5%float).
  - reflexivity.
  - reflexivity.
  - repeat split; eexists; reflexivity.
Defined.

Lemma toy_game_not_listed :
  RunPacmanScript.script None ["pong"%string] (@inl (@Exn Toy.world) (@Env Toy.world) 7)
  = {| RunPacmanScript.output :=
         [RunPacmanScript.Say RunPacmanScript.Banner;
          RunPacmanScript.ListGames;
          RunPacmanScript.Say (RunPacmanScript.AvailableGames ["pong"%string]);
          RunPacmanScript.Say RunPacmanScript.NotFound];
       RunPacmanScript.exit_status := 0 |}.
Proof.
  apply (proj1 (script_setup_exit_statuses ["pong"%string]
                  (@inl (@Exn Toy.world) (@Env Toy.world) 7))).
  intros Hin. apply elem_of_cons in Hin as [Hin|Hin]; [discriminate Hin|].
  apply elem_of_nil in Hin. exact Hin.
Defined.

Lemma toy_incomplete_observation :
  RunPacmanScript.exit_status
    (RunPacmanScript.script None ["pong"%string; "pacman"%string]
       (inr ToyScript.bare)) = 1 /\
  RunPacmanScript.actions
    (RunPacmanScript.output
       (RunPacmanScript.script None ["pong"%string; "pacman"%string]
          (inr ToyScript.bare))) = [] /\
  exists name,
    RunPacmanScript.result
      (RunPacmanScript.main ["pong"%string; "pacman"%string]
         (inr ToyScript.bare))
    = inl (AttributeError name).
Proof.
  apply (incomplete_observation_is_fatal ["pong"%string; "pacman"%string]
           ToyScript.bare (0, 0) 0).
  - exact pacman_listed.
  - reflexivity.
  - intros (_ & _ & _ & [pl Hpl] & _). discriminate Hpl.
Defined.

End MoreToyRuns.
